(** * The embedded content viewer ([InteractiveOutput.tsx])

    A shallow embedding of the React component [InteractiveOutput] of
    [frontend/src/components/interactive/InteractiveOutput.tsx] (the variant
    that takes both [url] and [htmlContent]) and of the fragment of JavaScript
    it runs on: the values a [message] event can carry, truthiness, the [+]
    operator, [Math.max], [Math.min] and [String.prototype.replace].

    Numbers are IEEE 754 binary64 values ([spec_float] at precision 53);
    strings are sequences of code units; a thrown exception is an explicit
    outcome ([Throw]).  The two conversions between strings and numbers are
    built-ins of the JavaScript engine and are taken as an interface
    ([JsRuntime]); nothing proved below depends on what they return.

    The script that the component puts into inline HTML is not transcribed
    by hand: its text is tokenized, parsed and run ([InjectedScript]). *)

From Stdlib Require Import ZArith String Ascii List Bool Lia.
From Stdlib Require Import Floats.SpecFloat.
From stdpp Require Import base option list gmap strings pretty.

Set Default Proof Using "Type".
Open Scope string_scope.

(** ** JavaScript numbers *)

Module Number.

Definition number : Type := spec_float.

Definition prec : Z := 53.
Definition emax : Z := 1024.

(** The number denoted by an integer literal. *)
Definition of_Z (z : Z) : number := binary_normalize prec emax z 0 false.

Definition NaN : number := S754_nan.
Definition pos_Infinity : number := S754_infinity false.
Definition neg_Infinity : number := S754_infinity true.
Definition pos_zero : number := S754_zero false.
Definition neg_zero : number := S754_zero true.

Definition add (x y : number) : number := SFadd prec emax x y.

(** [x < y] on numbers; false as soon as one side is NaN. *)
Definition ltb (x y : number) : bool := SFltb x y.

Definition is_NaN (x : number) : bool :=
  match x with S754_nan => true | _ => false end.

Definition is_zero (x : number) : bool :=
  match x with S754_zero _ => true | _ => false end.

Definition is_pos_zero (x : number) : bool :=
  match x with S754_zero false => true | _ => false end.

Definition is_neg_zero (x : number) : bool :=
  match x with S754_zero true => true | _ => false end.

End Number.

Import Number.

#[global] Arguments of_Z : simpl never.
#[global] Arguments add : simpl never.
#[global] Arguments ltb : simpl never.

(** ** JavaScript values, as a [message] event delivers them

    [event.data] is a structured clone.  The values modelled are the
    primitives and the plain objects, whose own properties are data
    properties holding such values; arrays and the other built-in objects
    that can be cloned are left out. *)

Inductive JsPrimitive : Type :=
| JsUndefined
| JsNull
| JsBoolean (b : bool)
| JsNumber (n : number)
| JsBigInt (z : Z)
| JsString (s : string).

#[warnings="-register-all"]
Inductive JsValue : Type :=
| JsPrim (p : JsPrimitive)
| JsObject (props : gmap string JsValue).

Coercion JsPrim : JsPrimitive >-> JsValue.

(** ** Completions: a result, or a thrown exception *)

Inductive JsError : Type :=
| TypeError.

Inductive Completion (A : Type) : Type :=
| Normal (a : A)
| Throw (e : JsError).

Arguments Normal {A} a.
Arguments Throw {A} e.

#[global] Instance Completion_ret : MRet Completion := fun A a => Normal a.

#[global] Instance Completion_bind : MBind Completion := fun A B f m =>
  match m with
  | Normal a => f a
  | Throw e => Throw e
  end.

(** ** The engine's conversions between strings and numbers *)

Class JsRuntime : Type := {
  (** [StringToNumber(str)]: the numeric value of a string, NaN if it is
      not a numeric literal. *)
  StringToNumber : string -> number;
  (** [Number::toString(x)] in radix 10. *)
  NumberToString : number -> string
}.

Section Operators.

Context `{JsRuntime}.

(** [ToBoolean]: the falsy values are undefined, null, false, +0, -0, NaN,
    0n and the empty string. *)
Definition ToBoolean (v : JsValue) : bool :=
  match v with
  | JsPrim JsUndefined => false
  | JsPrim JsNull => false
  | JsPrim (JsBoolean b) => b
  | JsPrim (JsNumber n) => negb (is_zero n || is_NaN n)
  | JsPrim (JsBigInt z) => negb (z =? 0)%Z
  | JsPrim (JsString s) => negb (String.eqb s "")
  | JsObject _ => true
  end.

(** [GetV(v, key)] for a [key] that no built-in prototype defines (the
    component reads ["type"] and ["height"]): an own data property of a
    plain object, undefined on anything else. *)
Definition GetV (v : JsValue) (key : string) : JsValue :=
  match v with
  | JsObject props => default (JsPrim JsUndefined) (props !! key)
  | JsPrim _ => JsUndefined
  end.

Definition is_nullish (v : JsValue) : bool :=
  match v with
  | JsPrim JsUndefined | JsPrim JsNull => true
  | _ => false
  end.

(** [v?.key] *)
Definition optional_member (v : JsValue) (key : string) : JsValue :=
  if is_nullish v then JsUndefined else GetV v key.

(** [v.key] *)
Definition member (v : JsValue) (key : string) : Completion JsValue :=
  if is_nullish v then Throw TypeError else Normal (GetV v key).

(** [v === "literal"] *)
Definition strict_equals_string (v : JsValue) (literal : string) : bool :=
  match v with
  | JsPrim (JsString s) => String.eqb s literal
  | _ => false
  end.

(** [ToPrimitive] without a preferred type.  A primitive is returned as it
    is.  A plain object tries [valueOf] and then [toString]: an own
    property of either name is data, hence not callable, and is skipped;
    the inherited [valueOf] returns the object itself; the inherited
    [toString] returns ["[object Object]"]. *)
Definition ToPrimitive (v : JsValue) : Completion JsPrimitive :=
  match v with
  | JsPrim p => Normal p
  | JsObject props =>
      match props !! "toString" with
      | Some _ => Throw TypeError
      | None => Normal (JsString "[object Object]")
      end
  end.

Definition ToString (p : JsPrimitive) : string :=
  match p with
  | JsUndefined => "undefined"
  | JsNull => "null"
  | JsBoolean true => "true"
  | JsBoolean false => "false"
  | JsNumber n => NumberToString n
  | JsBigInt z => pretty z
  | JsString s => s
  end.

Definition ToNumber_primitive (p : JsPrimitive) : Completion number :=
  match p with
  | JsUndefined => Normal NaN
  | JsNull => Normal pos_zero
  | JsBoolean true => Normal (of_Z 1)
  | JsBoolean false => Normal pos_zero
  | JsNumber n => Normal n
  | JsBigInt _ => Throw TypeError
  | JsString s => Normal (StringToNumber s)
  end.

Definition ToNumber (v : JsValue) : Completion number :=
  p ← ToPrimitive v; ToNumber_primitive p.

Definition is_string (p : JsPrimitive) : bool :=
  match p with JsString _ => true | _ => false end.

(** [lval + rval] *)
Definition js_add (lval rval : JsValue) : Completion JsPrimitive :=
  lprim ← ToPrimitive lval;
  rprim ← ToPrimitive rval;
  if is_string lprim || is_string rprim
  then Normal (JsString (ToString lprim +:+ ToString rprim))
  else
    match lprim, rprim with
    | JsBigInt x, JsBigInt y => Normal (JsBigInt (x + y))
    | JsBigInt _, _ | _, JsBigInt _ => Throw TypeError
    | _, _ =>
        lnum ← ToNumber_primitive lprim;
        rnum ← ToNumber_primitive rprim;
        Normal (JsNumber (add lnum rnum))
    end.

(** The loop of [Math.max] over the coerced arguments. *)
Fixpoint max_loop (highest : number) (coerced : list number) : number :=
  match coerced with
  | [] => highest
  | n :: rest =>
      if is_NaN n then NaN
      else
        let highest :=
          if is_pos_zero n && is_neg_zero highest then pos_zero else highest in
        max_loop (if ltb highest n then n else highest) rest
  end.

(** The loop of [Math.min] over the coerced arguments. *)
Fixpoint min_loop (lowest : number) (coerced : list number) : number :=
  match coerced with
  | [] => lowest
  | n :: rest =>
      if is_NaN n then NaN
      else
        let lowest :=
          if is_neg_zero n && is_pos_zero lowest then neg_zero else lowest in
        min_loop (if ltb n lowest then n else lowest) rest
  end.

Definition Math_max (args : list JsValue) : Completion number :=
  coerced ← mapM ToNumber args; Normal (max_loop neg_Infinity coerced).

Definition Math_min (args : list JsValue) : Completion number :=
  coerced ← mapM ToNumber args; Normal (min_loop pos_Infinity coerced).

End Operators.

(** ** [String.prototype.replace] with a string pattern *)

(** [StringIndexOf(s, searchValue, 0)]: the first position at which
    [searchValue] occurs in [s]. *)
Fixpoint StringIndexOf (s searchValue : string) : option nat :=
  if String.prefix searchValue s then Some 0
  else
    match s with
    | EmptyString => None
    | String _ rest => S <$> StringIndexOf rest searchValue
    end.

(** The substring of [s] from 0 to [n]. *)
Fixpoint substring_to (n : nat) (s : string) : string :=
  match n, s with
  | S n', String c rest => String c (substring_to n' rest)
  | _, _ => EmptyString
  end.

(** The substring of [s] from [n]. *)
Fixpoint substring_from (n : nat) (s : string) : string :=
  match n, s with
  | S n', String _ rest => substring_from n' rest
  | _, _ => s
  end.

(** [GetSubstitution] when the pattern is a string: there are no captures,
    so [$1] to [$99] and [$<] stand for themselves. *)
Fixpoint GetSubstitution (matched preceding following template : string) : string :=
  match template with
  | EmptyString => EmptyString
  | String "$" (String "$" rest) =>
      String "$" (GetSubstitution matched preceding following rest)
  | String "$" (String "`" rest) =>
      preceding +:+ GetSubstitution matched preceding following rest
  | String "$" (String "&" rest) =>
      matched +:+ GetSubstitution matched preceding following rest
  | String "$" (String "'" rest) =>
      following +:+ GetSubstitution matched preceding following rest
  | String c rest => String c (GetSubstitution matched preceding following rest)
  end.

(** Whether [$] occurs in a replacement template. *)
Fixpoint has_dollar (s : string) : bool :=
  match s with
  | EmptyString => false
  | String c rest => Ascii.eqb c "$" || has_dollar rest
  end.

(** [s.replace(searchValue, replaceValue)], both arguments strings: only the
    first occurrence is replaced. *)
Definition replace (s searchValue replaceValue : string) : string :=
  match StringIndexOf s searchValue with
  | None => s
  | Some position =>
      let preceding := substring_to position s in
      let following := substring_from (position + String.length searchValue) s in
      preceding
        +:+ GetSubstitution searchValue preceding following replaceValue
        +:+ following
  end.

(** The number of positions of [s] at which [pattern] occurs. *)
Fixpoint occurrences (pattern s : string) : nat :=
  (if String.prefix pattern s then 1 else 0) +
  match s with
  | EmptyString => 0
  | String _ rest => occurrences pattern rest
  end.

(** ** The browser around the component *)

(** What an iframe is navigated to: the srcdoc document made from a
    markup, the address that a non-empty [src] gives (as written there:
    what the browser shows for it, which for ["about:blank"] or for an
    address it cannot parse is a blank page, is not modelled), or the
    blank page of a frame without [srcdoc] and without a non-empty [src]. *)
Inductive Document : Type :=
| SrcdocDocument (markup : string)
| UrlDocument (address : string)
| AboutBlank.

(** The iframe element: the two content attributes the component writes
    and the documents it was navigated to, the current one first. *)
Record HTMLIFrameElement : Type := {
  srcdoc : option string;
  src : option string;
  navigations : list Document
}.

(** "Process the iframe attributes": [srcdoc] wins over [src]; with
    neither [srcdoc] nor a non-empty [src] the frame stays on about:blank. *)
Definition process_iframe_attributes (srcdoc src : option string) : Document :=
  match srcdoc with
  | Some markup => SrcdocDocument markup
  | None =>
      match src with
      | Some address => if String.eqb address "" then AboutBlank else UrlDocument address
      | None => AboutBlank
      end
  end.

(** Assigning [element.srcdoc] or [element.src] sets the attribute and
    navigates the frame again: the document in it is discarded and the one
    the attributes name is loaded from scratch. *)
Definition set_srcdoc (markup : string) (el : HTMLIFrameElement) : HTMLIFrameElement :=
  {| srcdoc := Some markup;
     src := src el;
     navigations := process_iframe_attributes (Some markup) (src el) :: navigations el |}.

Definition set_src (address : string) (el : HTMLIFrameElement) : HTMLIFrameElement :=
  {| srcdoc := srcdoc el;
     src := Some address;
     navigations := process_iframe_attributes (srcdoc el) (Some address) :: navigations el |}.

Definition current_document (el : HTMLIFrameElement) : option Document :=
  head (navigations el).

Record Blob : Type := {
  blobParts : list string;
  blobType : string
}.

(** The address given to [window.open]: a string of the page, or the URL
    that [URL.createObjectURL] minted for the blob stored at an index. *)
Inductive Address : Type :=
| AddressString (s : string)
| ObjectURL (index : nat).

(** The part of the host window the component acts on. *)
Record Window : Type := {
  objectURLs : list Blob;
  opened : list (Address * string)
}.

Definition createObjectURL (blob : Blob) (w : Window) : Address * Window :=
  (ObjectURL (length (objectURLs w)),
   {| objectURLs := objectURLs w ++ [blob]; opened := opened w |}).

Definition window_open (address : Address) (target : string) (w : Window) : Window :=
  {| objectURLs := objectURLs w; opened := (address, target) :: opened w |}.

Record MessageEvent : Type := {
  data : JsValue;
  origin : string
}.

(** ** The component *)

Record InteractiveOutputProps : Type := {
  url : option string;
  htmlContent : option string
}.

(** The three [useState] cells. *)
Record ViewerState : Type := {
  isExpanded : bool;
  isLoaded : bool;
  iframeHeight : number
}.

Definition setIsExpanded (b : bool) (st : ViewerState) : ViewerState :=
  {| isExpanded := b; isLoaded := isLoaded st; iframeHeight := iframeHeight st |}.

Definition setIsLoaded (b : bool) (st : ViewerState) : ViewerState :=
  {| isExpanded := isExpanded st; isLoaded := b; iframeHeight := iframeHeight st |}.

Definition setIframeHeight (n : number) (st : ViewerState) : ViewerState :=
  {| isExpanded := isExpanded st; isLoaded := isLoaded st; iframeHeight := n |}.

(** [useState(false)], [useState(false)], [useState(450)] *)
Definition initial_state : ViewerState :=
  {| isExpanded := false; isLoaded := false; iframeHeight := of_Z 450 |}.

(** A mounted component: its props, its state cells and [iframeRef.current]. *)
Record Viewer : Type := {
  props : InteractiveOutputProps;
  hooks : ViewerState;
  iframeRef : option HTMLIFrameElement
}.

Definition with_hooks (st : ViewerState) (v : Viewer) : Viewer :=
  {| props := props v; hooks := st; iframeRef := iframeRef v |}.

Definition with_iframe (el : HTMLIFrameElement) (v : Viewer) : Viewer :=
  {| props := props v; hooks := hooks v; iframeRef := Some el |}.

(** The value an optional string prop has where a condition on it holds:
    an absent prop and the empty string are falsy. *)
Definition if_truthy (prop : option string) : option string :=
  match prop with
  | Some s => if String.eqb s "" then None else Some s
  | None => None
  end.

Definition newline : string := String (ascii_of_nat 10) EmptyString.

(** The script element of the template literal, line by line. *)
Definition resize_script : string :=
  String.concat newline [
    "<script>";
    "                new ResizeObserver(() => {";
    "                    parent.postMessage({ type: 'resize', height: document.body.scrollHeight }, '*');";
    "                }).observe(document.body);";
    "                setTimeout(() => {";
    "                    parent.postMessage({ type: 'resize', height: document.body.scrollHeight }, '*');";
    "                }, 1000);";
    "              </script>"
  ].

Definition enhancedHtml (p : InteractiveOutputProps) : option string :=
  match if_truthy (htmlContent p) with
  | Some html => Some (replace html "</body>" (resize_script +:+ "</body>"))
  | None => None
  end.

Definition handleRefresh (v : Viewer) : Viewer :=
  match iframeRef v with
  | Some el =>
      match if_truthy (htmlContent (props v)) with
      | Some html => with_iframe (set_srcdoc html el) v
      | None =>
          match if_truthy (url (props v)) with
          | Some address => with_iframe (set_src address el) v
          | None => v
          end
      end
  | None => v
  end.

Section Handlers.

Context `{JsRuntime}.

Definition handleMessage (event : MessageEvent) (st : ViewerState) : Completion ViewerState :=
  if strict_equals_string (optional_member (data event) "type") "resize"
     && ToBoolean (optional_member (data event) "height")
  then
    height ← member (data event) "height";
    sum ← js_add height (JsNumber (of_Z 40));
    highest ← Math_max [JsPrim sum; JsPrim (JsNumber (of_Z 300))];
    lowest ← Math_min [JsPrim (JsNumber highest); JsPrim (JsNumber (of_Z 800))];
    Normal (setIframeHeight lowest st)
  else Normal st.

(** The listener as the event loop runs it: an exception that leaves the
    listener is reported and the state cells keep their values. *)
Definition dispatch_message (event : MessageEvent) (st : ViewerState) : ViewerState :=
  match handleMessage event st with
  | Normal st' => st'
  | Throw _ => st
  end.

End Handlers.

Definition openInNewTab (world : Viewer * Window) : Viewer * Window :=
  let '(v, w) := world in
  match if_truthy (htmlContent (props v)) with
  | Some html =>
      let blob := {| blobParts := [html]; blobType := "text/html" |} in
      let '(blobUrl, w) := createObjectURL blob w in
      (v, window_open blobUrl "_blank" w)
  | None =>
      match if_truthy (url (props v)) with
      | Some address => (v, window_open (AddressString address) "_blank" w)
      | None => (v, w)
      end
  end.

(** [onClick={() => setIsExpanded(!isExpanded)}] *)
Definition toggleExpanded (st : ViewerState) : ViewerState :=
  setIsExpanded (negb (isExpanded st)) st.

(** The backdrop's [onClick={() => setIsExpanded(false)}] *)
Definition backdropClick (st : ViewerState) : ViewerState :=
  setIsExpanded false st.

(** [onLoad={() => setIsLoaded(true)}] *)
Definition onLoad (st : ViewerState) : ViewerState :=
  setIsLoaded true st.

(** The [height] of the iframe's style. *)
Inductive CssHeight : Type :=
| CalcViewportHeightMinusPx (px : Z)
| Px (n : number).

(** What the component renders for the iframe. *)
Record IframeJsx : Type := {
  jsx_srcDoc : option string;
  jsx_src : option string;
  style_height : CssHeight;
  sandbox : list string
}.

Definition render (p : InteractiveOutputProps) (st : ViewerState) : IframeJsx :=
  {| jsx_srcDoc := enhancedHtml p;
     jsx_src := match if_truthy (htmlContent p) with
                | Some _ => None
                | None => url p
                end;
     style_height := if isExpanded st
                     then CalcViewportHeightMinusPx 80
                     else Px (iframeHeight st);
     sandbox := ["allow-scripts"; "allow-same-origin"; "allow-popups"] |}.

(** Whether the toolbar shows "Loading...". *)
Definition shows_loading (st : ViewerState) : bool := negb (isLoaded st).

(** The first render creates the iframe element with the rendered
    attributes, which starts its first navigation. *)
Definition mount (p : InteractiveOutputProps) : Viewer :=
  let jsx := render p initial_state in
  {| props := p;
     hooks := initial_state;
     iframeRef := Some {| srcdoc := jsx_srcDoc jsx;
                          src := jsx_src jsx;
                          navigations :=
                            [process_iframe_attributes (jsx_srcDoc jsx) (jsx_src jsx)] |} |}.

(** What can happen to a mounted viewer: the three toolbar buttons, a click
    on the backdrop, the iframe's [load] event and a [message] event. *)
Inductive Action : Type :=
| Refresh
| OpenInNewTab
| ToggleExpanded
| BackdropClick
| IframeLoad
| Message (event : MessageEvent).

Section Transitions.

Context `{JsRuntime}.

Definition step (a : Action) (world : Viewer * Window) : Viewer * Window :=
  let '(v, w) := world in
  match a with
  | Refresh => (handleRefresh v, w)
  | OpenInNewTab => openInNewTab (v, w)
  | ToggleExpanded => (with_hooks (toggleExpanded (hooks v)) v, w)
  | BackdropClick => (with_hooks (backdropClick (hooks v)) v, w)
  | IframeLoad => (with_hooks (onLoad (hooks v)) v, w)
  | Message event => (with_hooks (dispatch_message event (hooks v)) v, w)
  end.

Definition run (actions : list Action) (world : Viewer * Window) : Viewer * Window :=
  foldl (fun world a => step a world) world actions.

End Transitions.

(** ** The injected script, run in the embedded document

    The script element of [resize_script] is read as the browser reads it:
    its text is split into tokens, the tokens are parsed into a program,
    and the program is run against the interfaces it calls:
    [ResizeObserver], [setTimeout], [document.body] and
    [parent.postMessage].  The fragment of JavaScript covered is the one
    the script is written in: expression statements made of identifiers,
    string and integer literals, object literals, property access, calls,
    [new] and arrow functions without parameters.  Whatever lies outside
    it is reported as not modelled ([None]), never guessed.  Time is a
    clock in milliseconds. *)

Module InjectedScript.

(** *** The embedded document and what the script acts on *)

(** The layout of the embedded document's body element, as the callbacks
    read it. *)
Record EmbeddedDocument : Type := {
  body_scrollHeight : Z
}.

(** The embedded document as a script finds it: [document.body] is null
    as long as the document has no body element, which is the case for a
    script that the parser runs before it has made one. *)
Inductive DocumentState : Type :=
| WithoutBody
| WithBody (doc : EmbeddedDocument).

(** One call of [parent.postMessage(message, targetOrigin)]. *)
Record Posted : Type := {
  message : JsValue;
  targetOrigin : string
}.

Inductive Node : Type :=
| DocumentBody.

Definition Node_eqb (a b : Node) : bool :=
  match a, b with DocumentBody, DocumentBody => true end.

(** [{ type: 'resize', height: document.body.scrollHeight }] *)
Definition resize_message (doc : EmbeddedDocument) : JsValue :=
  JsObject {[ "type" := JsPrim (JsString "resize");
              "height" := JsPrim (JsNumber (of_Z (body_scrollHeight doc))) ]}.

(** *** The text of a script element *)

(** The child text of an element written as [<script>...</script>].  Text
    in which [</] or [<!--] occurs is left out: there the tokenizer's rules
    for the end of the script data have more cases than the first
    [</script>]. *)
Definition script_element_text (element : string) : option string :=
  if String.prefix "<script>" element
  then
    let rest := substring_from 8 element in
    position ← StringIndexOf rest "</script>";
    let text := substring_to position rest in
    if String.eqb (substring_from (position + 9) rest) ""
       && Nat.eqb (occurrences "</" text) 0 && Nat.eqb (occurrences "<!--" text) 0
    then Some text
    else None
  else None.

(** *** Tokens *)

Inductive Token : Type :=
| TName (name : string)
| TPunctuator (sign : string)
| TString (value : string)
| TNumber (value : Z).

Inductive LexState : Type :=
| Between
| InName (read : string)
| InNumber (read : Z)
| InString (quote : ascii) (read : string)
| AfterEquals.

Definition in_range (lo hi : nat) (c : ascii) : bool :=
  (lo <=? nat_of_ascii c)%nat && (nat_of_ascii c <=? hi)%nat.

(** Tab, line feed, carriage return and space. *)
Definition is_white (c : ascii) : bool :=
  in_range 9 10 c || in_range 13 13 c || in_range 32 32 c.

Definition is_line_terminator (c : ascii) : bool :=
  in_range 10 10 c || in_range 13 13 c.

Definition is_digit (c : ascii) : bool := in_range 48 57 c.

Definition digit_value (c : ascii) : Z := (Z.of_nat (nat_of_ascii c) - 48)%Z.

(** A letter, [$] or [_]. *)
Definition is_name_start (c : ascii) : bool :=
  in_range 65 90 c || in_range 97 122 c || Ascii.eqb c "$" || Ascii.eqb c "_".

Definition is_name_part (c : ascii) : bool := is_name_start c || is_digit c.

Definition is_single_punctuator (c : ascii) : bool :=
  existsb (Ascii.eqb c) ["("; ")"; "{"; "}"; ","; ";"; "."; ":"]%char.

Definition is_quote (c : ascii) : bool :=
  in_range 34 34 c || in_range 39 39 c.

Definition one (c : ascii) : string := String c EmptyString.

(** A character read between two tokens. *)
Definition lex_start (c : ascii) : option (LexState * list Token) :=
  if is_white c then Some (Between, [])
  else if is_name_start c then Some (InName (one c), [])
  else if is_digit c then Some (InNumber (digit_value c), [])
  else if is_quote c then Some (InString c "", [])
  else if Ascii.eqb c "=" then Some (AfterEquals, [])
  else if is_single_punctuator c then Some (Between, [TPunctuator (one c)])
  else None.

(** A character read in a state: the state after it and the tokens it
    completes.  A digit after a leading 0, a name or a point right after a
    number, an escape or a line end in a string, and [=] not followed by
    [>] are not covered. *)
Definition lex_step (state : LexState) (c : ascii) : option (LexState * list Token) :=
  match state with
  | Between => lex_start c
  | InName read =>
      if is_name_part c then Some (InName (read +:+ one c), [])
      else '(state, tokens) ← lex_start c; Some (state, TName read :: tokens)
  | InNumber read =>
      if is_digit c
      then if (read =? 0)%Z then None else Some (InNumber (10 * read + digit_value c)%Z, [])
      else if is_name_start c || Ascii.eqb c "." then None
      else '(state, tokens) ← lex_start c; Some (state, TNumber read :: tokens)
  | InString quote read =>
      if Ascii.eqb c quote then Some (Between, [TString read])
      else if Ascii.eqb c "\" || is_line_terminator c then None
      else Some (InString quote (read +:+ one c), [])
  | AfterEquals =>
      if Ascii.eqb c ">" then Some (Between, [TPunctuator "=>"]) else None
  end.

Fixpoint lex (state : LexState) (source : string) : option (list Token) :=
  match source with
  | EmptyString =>
      match state with
      | Between => Some []
      | InName read => Some [TName read]
      | InNumber read => Some [TNumber read]
      | InString _ _ | AfterEquals => None
      end
  | String c rest =>
      '(state, tokens) ← lex_step state c;
      later ← lex state rest;
      Some (tokens ++ later)%list
  end.

Definition tokenize (source : string) : option (list Token) := lex Between source.

(** *** Programs *)

(** Expressions, with the names of the ESTree node types.  The body of an
    arrow function is a block of expression statements. *)
#[warnings="-register-all"]
Inductive Expression : Type :=
| Identifier (name : string)
| StringLiteral (value : string)
| NumericLiteral (value : Z)
| ObjectExpression (properties : list (string * Expression))
| MemberExpression (object : Expression) (property : string)
| CallExpression (callee : Expression) (arguments : list Expression)
| NewExpression (callee : Expression) (arguments : list Expression)
| ArrowFunctionExpression (body : list Expression).

(** A program: a list of expression statements. *)
Definition Program : Type := list Expression.

(** The names that are reserved, in all code or in some; an identifier of
    such a name is left out. *)
Definition reserved_words : list string :=
  ["await"; "break"; "case"; "catch"; "class"; "const"; "continue"; "debugger";
   "default"; "delete"; "do"; "else"; "enum"; "export"; "extends"; "false";
   "finally"; "for"; "function"; "if"; "import"; "in"; "instanceof"; "new";
   "null"; "return"; "super"; "switch"; "this"; "throw"; "true"; "try";
   "typeof"; "var"; "void"; "while"; "with"; "yield"; "let"; "static";
   "implements"; "interface"; "package"; "private"; "protected"; "public";
   "async"; "of"; "get"; "set"].

Definition is_reserved (name : string) : bool :=
  existsb (String.eqb name) reserved_words.

Definition is_punctuator (sign : string) (token : Token) : bool :=
  match token with
  | TPunctuator sign' => String.eqb sign' sign
  | _ => false
  end.

(** Expect a punctuator at the head of the tokens. *)
Definition expect (sign : string) (tokens : list Token) : option (list Token) :=
  match tokens with
  | token :: rest => if is_punctuator sign token then Some rest else None
  | [] => None
  end.

(** Whether the tokens start with [() => {]. *)
Definition starts_arrow_function (tokens : list Token) : option (list Token) :=
  tokens ← expect "(" tokens;
  tokens ← expect ")" tokens;
  tokens ← expect "=>" tokens;
  expect "{" tokens.

(** A parser by recursive descent.  The fuel bounds the depth of the
    descent; [parse] gives as much as the tokens can use. *)
Fixpoint parse_assignment (fuel : nat) (tokens : list Token)
    : option (Expression * list Token) :=
  match fuel with
  | 0 => None
  | S fuel =>
      match starts_arrow_function tokens with
      | Some tokens =>
          '(body, tokens) ← parse_statements fuel tokens;
          tokens ← expect "}" tokens;
          Some (ArrowFunctionExpression body, tokens)
      | None =>
          '(e, tokens) ← parse_primary fuel tokens;
          parse_postfix fuel e tokens
      end
  end
with parse_primary (fuel : nat) (tokens : list Token)
    : option (Expression * list Token) :=
  match fuel with
  | 0 => None
  | S fuel =>
      match tokens with
      | TName name :: tokens =>
          if String.eqb name "new"
          then
            match tokens with
            | TName constructor :: tokens =>
                if is_reserved constructor then None
                else
                  tokens ← expect "(" tokens;
                  '(arguments, tokens) ← parse_arguments fuel tokens;
                  Some (NewExpression (Identifier constructor) arguments, tokens)
            | _ => None
            end
          else if is_reserved name then None
          else Some (Identifier name, tokens)
      | TString value :: tokens => Some (StringLiteral value, tokens)
      | TNumber value :: tokens => Some (NumericLiteral value, tokens)
      | TPunctuator sign :: tokens =>
          if String.eqb sign "{"
          then
            '(properties, tokens) ← parse_properties fuel tokens;
            Some (ObjectExpression properties, tokens)
          else None
      | [] => None
      end
  end
with parse_postfix (fuel : nat) (e : Expression) (tokens : list Token)
    : option (Expression * list Token) :=
  match fuel with
  | 0 => None
  | S fuel =>
      match tokens with
      | TPunctuator sign :: tokens' =>
          if String.eqb sign "."
          then
            match tokens' with
            | TName property :: tokens' =>
                parse_postfix fuel (MemberExpression e property) tokens'
            | _ => None
            end
          else if String.eqb sign "("
          then
            '(arguments, tokens') ← parse_arguments fuel tokens';
            parse_postfix fuel (CallExpression e arguments) tokens'
          else Some (e, tokens)
      | _ => Some (e, tokens)
      end
  end
with parse_arguments (fuel : nat) (tokens : list Token)
    : option (list Expression * list Token) :=
  match fuel with
  | 0 => None
  | S fuel =>
      match expect ")" tokens with
      | Some tokens => Some ([], tokens)
      | None =>
          '(e, tokens) ← parse_assignment fuel tokens;
          match expect "," tokens with
          | Some tokens =>
              '(rest, tokens) ← parse_arguments fuel tokens;
              Some (e :: rest, tokens)
          | None =>
              tokens ← expect ")" tokens;
              Some ([e], tokens)
          end
      end
  end
with parse_properties (fuel : nat) (tokens : list Token)
    : option (list (string * Expression) * list Token) :=
  match fuel with
  | 0 => None
  | S fuel =>
      match expect "}" tokens with
      | Some tokens => Some ([], tokens)
      | None =>
          match tokens with
          | TName key :: tokens =>
              if String.eqb key "__proto__" then None
              else
                tokens ← expect ":" tokens;
                '(e, tokens) ← parse_assignment fuel tokens;
                match expect "," tokens with
                | Some tokens =>
                    '(rest, tokens) ← parse_properties fuel tokens;
                    Some ((key, e) :: rest, tokens)
                | None =>
                    tokens ← expect "}" tokens;
                    Some ([(key, e)], tokens)
                end
          | _ => None
          end
      end
  end
with parse_statements (fuel : nat) (tokens : list Token)
    : option (list Expression * list Token) :=
  match fuel with
  | 0 => None
  | S fuel =>
      match tokens with
      | [] => Some ([], [])
      | token :: _ =>
          if is_punctuator "}" token then Some ([], tokens)
          else if is_punctuator "{" token then None
          else
            '(e, tokens) ← parse_assignment fuel tokens;
            tokens ← expect ";" tokens;
            '(rest, tokens) ← parse_statements fuel tokens;
            Some (e :: rest, tokens)
      end
  end.

(** Each step of the descent is followed, within three further steps, by
    one that uses up a token. *)
Definition parse (tokens : list Token) : option Program :=
  '(program, rest) ← parse_statements (4 * length tokens + 4) tokens;
  match rest with
  | [] => Some program
  | _ :: _ => None
  end.

(** The program of a script element. *)
Definition parse_script_element (element : string) : option Program :=
  text ← script_element_text element;
  tokens ← tokenize text;
  parse tokens.

(** *** Values and the embedded window *)

(** The values the program computes with: primitives, the objects that
    object literals make, the functions that arrow functions make, and the
    objects and functions of the browser that the program can reach. *)
#[warnings="-register-all"]
Inductive Value : Type :=
| Undefined
| Null
| NumberValue (n : number)
| StringValue (s : string)
| ObjectValue (properties : list (string * Value))
| FunctionValue (body : list Expression)
| ResizeObserverConstructor
| ResizeObserverObject (id : nat)
| ObserveFunction
| SetTimeoutFunction
| ParentWindow
| PostMessageFunction
| DocumentObject
| BodyElement.

(** The embedded window: the clock, the resize observers made so far (each
    with its callback and the nodes it observes; an observer's id is its
    position), the timers not yet fired (due time and handler, in the
    order in which they fire), the number of timers set so far, and the
    messages posted to the parent so far, the oldest first. *)
Record EmbeddedWindow : Type := {
  now : Z;
  observers : list (Value * list Node);
  timers : list (Z * Value);
  timers_set : nat;
  posted : list Posted
}.

Definition fresh_window : EmbeddedWindow :=
  {| now := 0; observers := []; timers := []; timers_set := 0; posted := [] |}.

(** An evaluation acts on the window and ends normally or by throwing;
    [None] marks what is not modelled. *)
Definition Eval (A : Type) : Type :=
  EmbeddedWindow -> option (Completion A * EmbeddedWindow).

#[global] Instance Eval_ret : MRet Eval := fun A a w => Some (Normal a, w).

#[global] Instance Eval_bind : MBind Eval := fun A B f m w =>
  match m w with
  | Some (Normal a, w) => f a w
  | Some (Throw e, w) => Some (Throw e, w)
  | None => None
  end.

Definition throw {A : Type} (e : JsError) : Eval A := fun w => Some (Throw e, w).

Definition not_modelled {A : Type} : Eval A := fun _ => None.

(** The global bindings the program can name. *)
Definition global (name : string) : Eval Value :=
  if String.eqb name "ResizeObserver" then mret ResizeObserverConstructor
  else if String.eqb name "setTimeout" then mret SetTimeoutFunction
  else if String.eqb name "parent" then mret ParentWindow
  else if String.eqb name "document" then mret DocumentObject
  else if String.eqb name "undefined" then mret Undefined
  else not_modelled.

(** The value of the last property of that name in an object literal. *)
Fixpoint own_property (properties : list (string * Value)) (property : string)
    : option Value :=
  match properties with
  | [] => None
  | (key, v) :: rest =>
      match own_property rest property with
      | Some later => Some later
      | None => if String.eqb key property then Some v else None
      end
  end.

(** [v.property]: reading a property of undefined or null throws. *)
Definition get (doc : DocumentState) (v : Value) (property : string) : Eval Value :=
  match v with
  | Undefined | Null => throw TypeError
  | DocumentObject =>
      if String.eqb property "body"
      then mret (match doc with WithBody _ => BodyElement | WithoutBody => Null end)
      else not_modelled
  | BodyElement =>
      if String.eqb property "scrollHeight"
      then
        match doc with
        | WithBody layout => mret (NumberValue (of_Z (body_scrollHeight layout)))
        | WithoutBody => not_modelled
        end
      else not_modelled
  | ParentWindow =>
      if String.eqb property "postMessage" then mret PostMessageFunction else not_modelled
  | ResizeObserverObject _ =>
      if String.eqb property "observe" then mret ObserveFunction else not_modelled
  | ObjectValue properties =>
      match own_property properties property with
      | Some v => mret v
      | None => not_modelled
      end
  | _ => not_modelled
  end.

Definition is_callable (v : Value) : bool :=
  match v with
  | FunctionValue _ | ResizeObserverConstructor | ObserveFunction
  | SetTimeoutFunction | PostMessageFunction => true
  | _ => false
  end.

(** The structured clone of a message; a later property of the same name
    replaces an earlier one.  Functions and the browser's objects cannot
    be cloned. *)
Fixpoint StructuredSerialize (v : Value) : option JsValue :=
  match v with
  | Undefined => Some (JsPrim JsUndefined)
  | Null => Some (JsPrim JsNull)
  | NumberValue n => Some (JsPrim (JsNumber n))
  | StringValue s => Some (JsPrim (JsString s))
  | ObjectValue properties =>
      JsObject <$>
        (fix each (properties : list (string * Value)) (fields : gmap string JsValue)
           : option (gmap string JsValue) :=
           match properties with
           | [] => Some fields
           | (key, v) :: rest =>
               clone ← StructuredSerialize v;
               each rest (<[key := clone]> fields)
           end) properties ∅
  | _ => None
  end.

(** The conversion of a timeout to a whole number of milliseconds, for
    magnitudes below 2^31; a negative timeout counts as 0. *)
Definition to_milliseconds (n : number) : option Z :=
  match n with
  | S754_zero _ | S754_infinity _ | S754_nan => Some 0%Z
  | S754_finite sign m e =>
      let magnitude := (if 0 <=? e then Z.pos m * 2 ^ e else Z.pos m / 2 ^ (- e))%Z in
      if (magnitude <? 2 ^ 31)%Z
      then Some (if sign then 0 else magnitude)%Z
      else None
  end.

(** A timer is put after the timers that are due no later than it is. *)
Fixpoint insert_timer (timer : Z * Value) (waiting : list (Z * Value))
    : list (Z * Value) :=
  match waiting with
  | [] => [timer]
  | first :: rest =>
      if (fst timer <? fst first)%Z then timer :: waiting
      else first :: insert_timer timer rest
  end.

(** [parent.postMessage(message, targetOrigin)] *)
Definition postMessage (message : JsValue) (targetOrigin : string) : Eval Value :=
  fun w =>
    Some (Normal Undefined,
          {| now := now w;
             observers := observers w;
             timers := timers w;
             timers_set := timers_set w;
             posted := (posted w ++ [ {| message := message;
                                         targetOrigin := targetOrigin |} ])%list |}).

(** [new ResizeObserver(callback)] *)
Definition new_ResizeObserver (callback : Value) : Eval Value :=
  fun w =>
    Some (Normal (ResizeObserverObject (length (observers w))),
          {| now := now w;
             observers := (observers w ++ [(callback, [])])%list;
             timers := timers w;
             timers_set := timers_set w;
             posted := posted w |}).

Definition add_target (target : Node) (targets : list Node) : list Node :=
  if existsb (Node_eqb target) targets then targets else (targets ++ [target])%list.

(** [observer.observe(target)] for a target that is an element. *)
Definition observe (id : nat) (target : Node) : Eval Value :=
  fun w =>
    match observers w !! id with
    | Some (callback, targets) =>
        Some (Normal Undefined,
              {| now := now w;
                 observers := <[id := (callback, add_target target targets)]> (observers w);
                 timers := timers w;
                 timers_set := timers_set w;
                 posted := posted w |})
    | None => None
    end.

(** [setTimeout(handler, delay)]: the timer's identifier is the number of
    timers set, this one included. *)
Definition setTimeout (handler : Value) (delay : Z) : Eval Value :=
  fun w =>
    Some (Normal (NumberValue (of_Z (Z.of_nat (S (timers_set w))))),
          {| now := now w;
             observers := observers w;
             timers := insert_timer ((now w + delay)%Z, handler) (timers w);
             timers_set := S (timers_set w);
             posted := posted w |}).

(** A call of a function of the browser. *)
Definition host_call (this f : Value) (arguments : list Value) : Eval Value :=
  match f with
  | PostMessageFunction =>
      match this, arguments with
      | ParentWindow, [] => throw TypeError
      | ParentWindow, [message; StringValue targetOrigin] =>
          if String.eqb targetOrigin "*"
          then
            match StructuredSerialize message with
            | Some clone => postMessage clone targetOrigin
            | None => not_modelled
            end
          else not_modelled
      | _, _ => not_modelled
      end
  | ObserveFunction =>
      match this, arguments with
      | ResizeObserverObject _, [] => throw TypeError
      | ResizeObserverObject id, [BodyElement] => observe id DocumentBody
      | ResizeObserverObject _, [_] => throw TypeError
      | ResizeObserverObject _, _ => not_modelled
      | _, _ => throw TypeError
      end
  | SetTimeoutFunction =>
      match this, arguments with
      | Undefined, [] => throw TypeError
      | Undefined, [FunctionValue body] => setTimeout (FunctionValue body) 0
      | Undefined, FunctionValue body :: NumberValue delay :: _ =>
          match to_milliseconds delay with
          | Some ms => setTimeout (FunctionValue body) ms
          | None => not_modelled
          end
      | _, _ => not_modelled
      end
  | _ => throw TypeError
  end.

(** [new f(arguments)]: of the functions at hand, only [ResizeObserver]
    is a constructor. *)
Definition construct (f : Value) (arguments : list Value) : Eval Value :=
  match f, arguments with
  | ResizeObserverConstructor, callback :: _ =>
      if is_callable callback then new_ResizeObserver callback else throw TypeError
  | _, _ => throw TypeError
  end.

(** *** Evaluation *)

(** The value of an expression in a document.  A function made by the
    program runs its body when it is called; the depth bounds how deep
    such calls go from within the program. *)
Fixpoint evaluate (depth : nat) (doc : DocumentState) : Expression -> Eval Value :=
  fix eval (e : Expression) : Eval Value :=
    let call (this f : Value) (arguments : list Value) : Eval Value :=
      match f with
      | FunctionValue body =>
          match depth with
          | 0 => not_modelled
          | S depth => _ ← mapM (evaluate depth doc) body; mret Undefined
          end
      | _ => host_call this f arguments
      end in
    match e with
    | Identifier name => global name
    | StringLiteral value => mret (StringValue value)
    | NumericLiteral value => mret (NumberValue (of_Z value))
    | ObjectExpression properties =>
        fields ← mapM (fun property => v ← eval (snd property); mret (fst property, v))
                   properties;
        mret (ObjectValue fields)
    | MemberExpression object property =>
        v ← eval object;
        get doc v property
    | CallExpression callee arguments =>
        match callee with
        | MemberExpression object property =>
            this ← eval object;
            f ← get doc this property;
            values ← mapM eval arguments;
            call this f values
        | _ =>
            f ← eval callee;
            values ← mapM eval arguments;
            call Undefined f values
        end
    | NewExpression callee arguments =>
        f ← eval callee;
        values ← mapM eval arguments;
        construct f values
    | ArrowFunctionExpression body => mret (FunctionValue body)
    end.

(** The statements of a program or of a function body, in order; a throw
    ends them. *)
Definition run_statements (depth : nat) (doc : DocumentState) (statements : list Expression)
    : Eval unit :=
  _ ← mapM (evaluate depth doc) statements; mret tt.

(** The script as the browser runs it in a fresh window. *)
Definition run_script (depth : nat) (doc : DocumentState) (program : Program)
    : option (Completion unit * EmbeddedWindow) :=
  run_statements depth doc program fresh_window.

(** *** What the browser does afterwards *)

(** It reports a change of the size of a node, or lets time pass. *)
Inductive EmbeddedEvent : Type :=
| Resized (node : Node)
| Elapsed (ms : Z).

(** The browser calls a callback: what the callback throws is reported
    and goes no further. *)
Definition run_callback (depth : nat) (doc : DocumentState) (callback : Value)
    (w : EmbeddedWindow) : option EmbeddedWindow :=
  match callback with
  | FunctionValue body => snd <$> run_statements depth doc body w
  | _ => None
  end.

Fixpoint run_callbacks (depth : nat) (doc : DocumentState) (callbacks : list Value)
    (w : EmbeddedWindow) : option EmbeddedWindow :=
  match callbacks with
  | [] => Some w
  | callback :: rest =>
      w ← run_callback depth doc callback w;
      run_callbacks depth doc rest w
  end.

Definition observes (node : Node) (observer : Value * list Node) : bool :=
  existsb (Node_eqb node) (snd observer).

Definition is_due (t : Z) (timer : Z * Value) : bool := (fst timer <=? t)%Z.

(** An event, delivered to the window in the document as it is then.  A
    change of size calls the callback of each observer of the node.  When
    time passes, the timers that have become due fire, each once, and are
    gone. *)
Definition deliver (depth : nat) (ev : EmbeddedEvent) (doc : DocumentState)
    (w : EmbeddedWindow) : option EmbeddedWindow :=
  match ev with
  | Resized node =>
      run_callbacks depth doc (fst <$> List.filter (observes node) (observers w)) w
  | Elapsed ms =>
      let t := (now w + ms)%Z in
      run_callbacks depth doc (snd <$> List.filter (is_due t) (timers w))
        {| now := t;
           observers := observers w;
           timers := List.filter (fun timer => negb (is_due t timer)) (timers w);
           timers_set := timers_set w;
           posted := posted w |}
  end.

End InjectedScript.

(** ** The specification's vocabulary *)

(** [clamp(x, lo, hi)] *)
Definition clamp (x lo hi : number) : number :=
  if ltb x lo then lo else if ltb hi x then hi else x.

(** A payload of the shape [{type: "resize", height: number}]. *)
Definition is_SizeReport (payload : JsValue) : bool :=
  match payload with
  | JsObject fields =>
      match fields !! "type", fields !! "height" with
      | Some (JsPrim (JsString t)), Some (JsPrim (JsNumber _)) => String.eqb t "resize"
      | _, _ => false
      end
  | JsPrim _ => false
  end.

(** The payload [{type: "resize", height: h}]. *)
Definition SizeReport (h : number) : JsValue :=
  JsObject {[ "type" := JsPrim (JsString "resize"); "height" := JsPrim (JsNumber h) ]}.

(** The viewers in which inline HTML has taken the iframe: no [src] is
    set, and every document shown so far is a [srcdoc] document. *)
Definition inline_only (p : InteractiveOutputProps) (v : Viewer) : Prop :=
  props v = p
  /\ exists el : HTMLIFrameElement,
      iframeRef v = Some el
      /\ src el = None
      /\ Forall (fun d => exists markup, d = SrcdocDocument markup) (navigations el).

(** The guard of [handleMessage]. *)
Definition accepts (payload : JsValue) : bool :=
  strict_equals_string (optional_member payload "type") "resize"
  && ToBoolean (optional_member payload "height").

(** ** Vocabulary for the viewer's runs *)

(** A height that is a number, not below 300 and not above 800. *)
Definition height_in_range (n : number) : bool :=
  negb (is_NaN n) && negb (ltb n (of_Z 300)) && negb (ltb (of_Z 800) n).

(** Messages whose payload fails the guard or carries a number as height. *)
Definition numeric_or_ignored (a : Action) : Prop :=
  match a with
  | Message event =>
      accepts (data event) = false
      \/ exists h : number, GetV (data event) "height" = JsPrim (JsNumber h)
  | _ => True
  end.

(** How often the refresh button is pressed in a run. *)
Fixpoint refreshes (actions : list Action) : nat :=
  match actions with
  | [] => 0
  | Refresh :: rest => S (refreshes rest)
  | _ :: rest => refreshes rest
  end.

(** Structural equality of numbers. *)
Definition number_eqb (a b : number) : bool :=
  match a, b with
  | S754_zero s, S754_zero s' => Bool.eqb s s'
  | S754_infinity s, S754_infinity s' => Bool.eqb s s'
  | S754_nan, S754_nan => true
  | S754_finite s m e, S754_finite s' m' e' =>
      Bool.eqb s s' && Pos.eqb m m' && Z.eqb e e'
  | _, _ => false
  end.

(** The height the viewer should take for a whole number of pixels. *)
Definition expected_height (h : Z) : Z := Z.min (Z.max (h + 40) 300) 800.

(** Whether a report of [h] pixels passes the guard and gives
    [expected_height h]. *)
Definition integer_report_ok (h : Z) : bool :=
  ToBoolean (JsPrim (JsNumber (of_Z h)))
  && number_eqb (clamp (add (of_Z h) (of_Z 40)) (of_Z 300) (of_Z 800))
                (of_Z (expected_height h)).

(** The payload [{type: "resize", height: v}]. *)
Definition resize_payload (v : JsValue) : JsValue :=
  JsObject {[ "type" := JsPrim (JsString "resize"); "height" := v ]}.

(** How often the open-in-new-tab button is pressed in a run. *)
Fixpoint opens (actions : list Action) : nat :=
  match actions with
  | [] => 0
  | OpenInNewTab :: rest => S (opens rest)
  | _ :: rest => opens rest
  end.

(** The [k] calls of [window.open] that follow [n] stored blobs, the
    newest first: each opens the URL of the blob stored last. *)
Fixpoint opened_blobs (n k : nat) : list (Address * string) :=
  match k with
  | 0 => []
  | S k' => (ObjectURL (n + k'), "_blank") :: opened_blobs n k'
  end.

(** ** The chat transcript's choice of a message body ([ChatView.tsx]) *)

Module ChatView.

Inductive Role : Type :=
| human
| ai
| system.

(** A message of the store, with the fields that [ChatView] gives it. *)
Record Message : Type := {
  id : string;
  role : Role;
  content : string;
  has_interactive : bool;
  interactive_html_url : option string;
  html_content : option string;
  status_log : option (list string);
  created_at : string
}.







Section Uploads.

Context `{JsRuntime}.




End Uploads.


End ChatView.

(** ** The first variant of the component, which takes a URL only *)

Module InteractiveOutputV1.

(** [handleRefresh]: [iframeRef.current.src = url]. *)
Definition handleRefresh (url : string) (iframeRef : option HTMLIFrameElement)
    : option HTMLIFrameElement :=
  match iframeRef with
  | Some el => Some (set_src url el)
  | None => None
  end.

(** The first render: [<iframe src={url} ... />]. *)
Definition mount (url : string) : option HTMLIFrameElement :=
  Some {| srcdoc := None;
          src := Some url;
          navigations := [process_iframe_attributes None (Some url)] |}.

End InteractiveOutputV1.

(** ** The sign-in page ([AuthPage]) *)

Module AuthPage.

Inductive Provider : Type :=
| google
| github.

(** The calls into [@/lib/firebase]. *)
Inductive AuthCall : Type :=
| signInWithGoogle
| signInWithGithub
| signInWithEmail (email password : string)
| signUpWithEmail (email password : string).

(** What a rejected call throws: an [Error] with its message, or anything
    else. *)
Inductive Thrown : Type :=
| ErrorInstance (message : string)
| NotAnError.

(** How an awaited call ends. *)
Inductive Settlement : Type :=
| Fulfilled
| Rejected (err : Thrown).

(** The five [useState] cells. *)
Record State : Type := {
  isSignUp : bool;
  email : string;
  password : string;
  error : string;
  loading : bool
}.

Definition initial : State :=
  {| isSignUp := false; email := ""; password := ""; error := ""; loading := false |}.

Definition setIsSignUp (b : bool) (st : State) : State :=
  {| isSignUp := b; email := email st; password := password st;
     error := error st; loading := loading st |}.

Definition setEmail (s : string) (st : State) : State :=
  {| isSignUp := isSignUp st; email := s; password := password st;
     error := error st; loading := loading st |}.

Definition setPassword (s : string) (st : State) : State :=
  {| isSignUp := isSignUp st; email := email st; password := s;
     error := error st; loading := loading st |}.

Definition setError (s : string) (st : State) : State :=
  {| isSignUp := isSignUp st; email := email st; password := password st;
     error := s; loading := loading st |}.

Definition setLoading (b : bool) (st : State) : State :=
  {| isSignUp := isSignUp st; email := email st; password := password st;
     error := error st; loading := b |}.

(** [handleEmailAuth] up to its [await]: the cells after the two setters,
    and the call it awaits. *)
Definition handleEmailAuth (st : State) : State * AuthCall :=
  (setLoading true (setError "" st),
   if isSignUp st
   then signUpWithEmail (email st) (password st)
   else signInWithEmail (email st) (password st)).

(** [handleSSO(provider)] up to its [await]. *)
Definition handleSSO (provider : Provider) (st : State) : State * AuthCall :=
  (setLoading true (setError "" st),
   match provider with
   | google => signInWithGoogle
   | github => signInWithGithub
   end).

(** [err instanceof Error ? err.message : "Authentication failed"] *)
Definition message_of (err : Thrown) : string :=
  match err with
  | ErrorInstance message => message
  | NotAnError => "Authentication failed"
  end.

(** Either handler from its [await] on: the [catch] and the [finally]. *)
Definition resume (s : Settlement) (st : State) : State :=
  let st :=
    match s with
    | Fulfilled => st
    | Rejected err => setError (message_of err) st
    end in
  setLoading false st.

(** The page and the calls it awaits, oldest first. *)
Record World : Type := {
  page : State;
  awaited : list AuthCall
}.

Inductive Event : Type :=
| ChangeEmail (value : string)
| ChangePassword (value : string)
| ToggleSignUp
| Submit
| ClickSSO (provider : Provider)
| Settle (s : Settlement).

(** The submit button and the two provider buttons are [disabled] while
    [loading]; a settlement resumes the handler of the oldest awaited
    call. *)
Definition step (ev : Event) (w : World) : World :=
  match ev with
  | ChangeEmail value => {| page := setEmail value (page w); awaited := awaited w |}
  | ChangePassword value => {| page := setPassword value (page w); awaited := awaited w |}
  | ToggleSignUp =>
      {| page := setError "" (setIsSignUp (negb (isSignUp (page w))) (page w));
         awaited := awaited w |}
  | Submit =>
      if loading (page w) then w
      else
        let '(st, call) := handleEmailAuth (page w) in
        {| page := st; awaited := awaited w ++ [call] |}
  | ClickSSO provider =>
      if loading (page w) then w
      else
        let '(st, call) := handleSSO provider (page w) in
        {| page := st; awaited := awaited w ++ [call] |}
  | Settle s =>
      match awaited w with
      | [] => w
      | _ :: rest => {| page := resume s (page w); awaited := rest |}
      end
  end.

Definition run (events : list Event) (w : World) : World :=
  foldl (fun w ev => step ev w) w events.


(** Nothing is awaited and the buttons are enabled. *)
Definition idle (w : World) : Prop :=
  awaited w = [] /\ loading (page w) = false.

(** One call is awaited and the buttons are disabled. *)
Definition awaiting (call : AuthCall) (w : World) : Prop :=
  awaited w = [call] /\ loading (page w) = true.

End AuthPage.

(** ** The profile made from the signed-in user ([Home]) *)

Module Home.

(** The fields of Firebase's [User] that the callback reads. *)
Record User : Type := {
  uid : string;
  email : option string;
  displayName : option string;
  photoURL : option string
}.

Record UserProfile : Type := {
  profile_uid : string;
  profile_email : string;
  profile_displayName : string;
  profile_photoURL : option string;
  planTier : string
}.

(** [s.split("@")[0]]: [s] up to its first ["@"], all of [s] without one. *)
Definition split_at_first (s : string) : string :=
  match StringIndexOf s "@" with
  | Some position => substring_to position s
  | None => s
  end.

(** [a || b] on optional strings, as the value of the expression. *)
Definition or_else (a : option string) (b : option string) : option string :=
  match if_truthy a with
  | Some s => Some s
  | None => b
  end.

(** The argument of [setUser] for a signed-in user. *)
Definition profile_of (user : User) : UserProfile :=
  {| profile_uid := uid user;
     profile_email := default "" (or_else (email user) (Some ""));
     profile_displayName :=
       default "User"
         (or_else (displayName user)
            (or_else (split_at_first <$> email user) (Some "User")));
     profile_photoURL := or_else (photoURL user) None;
     planTier := "free" |}.

End Home.

(** ** The API client's request builder ([authFetch]) *)

Module Api.

Inductive Body : Type :=
| StringBody (text : string)
| FormDataBody (entries : list (string * string)).

(** The fields of [RequestInit] that the client uses. *)
Record RequestInit : Type := {
  method : option string;
  body : option Body;
  headers : gmap string string
}.

Record Request : Type := {
  request_url : string;
  request_init : RequestInit
}.

(** [options = {}] *)
Definition no_options : RequestInit :=
  {| method := None; body := None; headers := ∅ |}.

(** [options.body instanceof FormData] *)
Definition is_FormData (b : option Body) : bool :=
  match b with
  | Some (FormDataBody _) => true
  | _ => false
  end.

(** [process.env.NEXT_PUBLIC_API_URL || "http://localhost:8000/api/v1"] *)
Definition API_BASE (env : option string) : string :=
  match if_truthy env with
  | Some base => base
  | None => "http://localhost:8000/api/v1"
  end.

(** The request that [authFetch(path, options)] hands to [fetch], given
    the environment variable and the token that [getIdToken()] resolved
    to. *)
Definition authFetch (env token : option string) (path : string)
    (options : RequestInit) : Request :=
  let headers := headers options in
  let headers :=
    match if_truthy token with
    | Some t => <["Authorization" := "Bearer " +:+ t]> headers
    | None => headers
    end in
  let headers :=
    if is_FormData (body options) then headers
    else <["Content-Type" := "application/json"]> headers in
  {| request_url := API_BASE env +:+ path;
     request_init := {| method := method options;
                        body := body options;
                        headers := headers |} |}.

End Api.

(** ** The text shown for a message ([extractText] of [ChatView.tsx])

    White space and line terminators matter here, so a string is the list
    of its UTF-16 code units. *)

Module Text.

(** The code units of a string of ASCII characters. *)
Definition units (s : string) : list N := N_of_ascii <$> list_ascii_of_string s.

(** Whether [s] begins with [pattern]. *)
Fixpoint starts_with (pattern s : list N) : bool :=
  match pattern, s with
  | [], _ => true
  | p :: pattern', c :: s' => N.eqb p c && starts_with pattern' s'
  | _ :: _, [] => false
  end.

(** Whether [pattern] occurs in [s]. *)
Fixpoint occurs_in (pattern s : list N) : bool :=
  starts_with pattern s
  || match s with
     | [] => false
     | _ :: rest => occurs_in pattern rest
     end.

(** Whether an occurrence of [pattern] in [s] starts before position [n]. *)
Fixpoint starts_within (pattern : list N) (n : nat) (s : list N) : bool :=
  match n with
  | 0 => false
  | S n' =>
      starts_with pattern s
      || match s with
         | [] => false
         | _ :: rest => starts_within pattern n' rest
         end
  end.

(** LineTerminator: LF, CR, LS, PS. *)
Definition is_line_terminator (c : N) : bool :=
  (N.eqb c 10 || N.eqb c 13 || N.eqb c 0x2028 || N.eqb c 0x2029)%N.

(** WhiteSpace: TAB, VT, FF, ZWNBSP and the space separators. *)
Definition is_white_space (c : N) : bool :=
  (N.eqb c 9 || N.eqb c 11 || N.eqb c 12 || N.eqb c 0xFEFF
   || N.eqb c 0x20 || N.eqb c 0xA0 || N.eqb c 0x1680
   || (N.leb 0x2000 c && N.leb c 0x200A)
   || N.eqb c 0x202F || N.eqb c 0x205F || N.eqb c 0x3000)%N.

(** What [trim] strips. *)
Definition is_trimmed (c : N) : bool := is_white_space c || is_line_terminator c.

Fixpoint trimStart (s : list N) : list N :=
  match s with
  | c :: rest => if is_trimmed c then trimStart rest else s
  | [] => []
  end.

Definition trimEnd (s : list N) : list N := rev (trimStart (rev s)).

(** [s.trim()] *)
Definition trim (s : list N) : list N := trimEnd (trimStart s).

(** [.] matches a code unit that is no line terminator; [[\s\S]] matches
    every code unit. *)
Definition dot (c : N) : bool := negb (is_line_terminator c).

Definition any (c : N) : bool := true.

(** [X*?closing] at the start of [s], for a class [X] and a literal
    [closing]: the shortest run of code units of the class that [closing]
    follows.  The result is the length of the match. *)
Fixpoint lazy_star (class : N -> bool) (closing : list N) (s : list N) : option nat :=
  if starts_with closing s then Some (length closing)
  else
    match s with
    | c :: rest => if class c then S <$> lazy_star class closing rest else None
    | [] => None
    end.

(** [X+?closing] at the start of [s]. *)
Definition lazy_plus (class : N -> bool) (closing : list N) (s : list N) : option nat :=
  match s with
  | c :: rest => if class c then S <$> lazy_star class closing rest else None
  | [] => None
  end.

(** [opening X closing] at the start of [s], where [rest] matches what
    follows [opening]. *)
Definition delimited (opening : list N) (rest : list N -> option nat) (s : list N)
    : option nat :=
  if starts_with opening s
  then (fun n => length opening + n) <$> rest (drop (length opening) s)
  else None.

(** [/<!-- INTERACTIVE_OUTPUT: .+? -->/] at the start of [s]. *)
Definition interactive_marker (s : list N) : option nat :=
  delimited (units "<!-- INTERACTIVE_OUTPUT: ") (lazy_plus dot (units " -->")) s.

Definition HTML_CONTENT_START : list N := units "<!-- HTML_CONTENT_START -->".

Definition HTML_CONTENT_END : list N := units "<!-- HTML_CONTENT_END -->".

(** [/<!-- HTML_CONTENT_START -->[\s\S]*?<!-- HTML_CONTENT_END -->/] at the
    start of [s]. *)
Definition html_block (s : list N) : option nat :=
  delimited HTML_CONTENT_START (lazy_star any HTML_CONTENT_END) s.

(** [s.replace(/regex/g, "")] for a regex that matches no empty string: from
    left to right, what the regex matches at a position is left out and the
    search goes on after the match.  [skip] counts the code units of a match
    still to be left out. *)
Fixpoint remove_matches (regex : list N -> option nat) (skip : nat) (s : list N)
    : list N :=
  match s with
  | [] => []
  | c :: rest =>
      match skip with
      | S skip' => remove_matches regex skip' rest
      | 0 =>
          match regex s with
          | Some (S n) => remove_matches regex n rest
          | _ => c :: remove_matches regex 0 rest
          end
      end
  end.

Definition extractText (content : list N) : list N :=
  trim (remove_matches html_block 0 (remove_matches interactive_marker 0 content)).

End Text.

(** * Properties *)

Ltac by_computation := vm_compute; intros; first [reflexivity | discriminate].

(** ** Numbers: [Math.min(Math.max(x, 300), 800)] is [clamp(x, 300, 800)] *)

Section NumberFacts.

Lemma of_Z_300 : of_Z 300 = S754_finite false 5277655813324800%positive (-44)%Z.
Proof. by_computation. Qed.

Lemma of_Z_800 : of_Z 800 = S754_finite false 7036874417766400%positive (-43)%Z.
Proof. by_computation. Qed.

Lemma is_NaN_ltb_l x y : is_NaN x = true -> ltb x y = false.
Proof. destruct x; try discriminate. reflexivity. Qed.

Lemma is_NaN_ltb_r x y : is_NaN y = true -> ltb x y = false.
Proof. destruct y; try discriminate. destruct x; reflexivity. Qed.

(** [Math.max(x, 300)] on numbers. *)
Lemma max_loop_300 x :
  max_loop neg_Infinity [x; of_Z 300]
  = if is_NaN x then NaN else if ltb x (of_Z 300) then of_Z 300 else x.
Proof.
  rewrite of_Z_300.
  destruct x as [[|]|[|]| |s m e].
  1-5: by_computation.
  reflexivity.
Qed.

(** [Math.min(y, 800)] on numbers. *)
Lemma min_loop_800 y :
  min_loop pos_Infinity [y; of_Z 800]
  = if is_NaN y then NaN else if ltb (of_Z 800) y then of_Z 800 else y.
Proof.
  rewrite of_Z_800.
  destruct y as [[|]|[|]| |s m e].
  1-5: by_computation.
  reflexivity.
Qed.

Lemma min_max_clamp x :
  min_loop pos_Infinity [max_loop neg_Infinity [x; of_Z 300]; of_Z 800]
  = clamp x (of_Z 300) (of_Z 800).
Proof.
  rewrite max_loop_300, min_loop_800. unfold clamp.
  destruct (is_NaN x) eqn:Hnan.
  { rewrite (is_NaN_ltb_l x), (is_NaN_ltb_r _ x) by done.
    destruct x; try discriminate. reflexivity. }
  destruct (ltb x (of_Z 300)) eqn:Hlo.
  - by_computation.
  - rewrite Hnan. reflexivity.
Qed.

(** The result of [clamp] is neither below 300 nor above 800. *)
Lemma clamp_within x :
  ltb (clamp x (of_Z 300) (of_Z 800)) (of_Z 300) = false
  /\ ltb (of_Z 800) (clamp x (of_Z 300) (of_Z 800)) = false.
Proof.
  unfold clamp.
  destruct (ltb x (of_Z 300)) eqn:Hlo; [split; by_computation |].
  destruct (ltb (of_Z 800) x) eqn:Hhi; [split; by_computation |].
  by split.
Qed.


(** Rounding never makes a NaN: the mantissa stays non-negative. *)
Lemma shr_1_nonneg mrs : (0 <= shr_m mrs)%Z -> (0 <= shr_m (shr_1 mrs))%Z.
Proof. destruct mrs as [[| [p | p |] | p] r s]; cbn; lia. Qed.

Lemma iter_shr_1_nonneg p mrs :
  (0 <= shr_m mrs)%Z -> (0 <= shr_m (SpecFloat.iter_pos shr_1 p mrs))%Z.
Proof.
  revert mrs. induction p as [p IH | p IH |]; intros mrs Hm; cbn [SpecFloat.iter_pos].
  - apply IH, IH. by apply shr_1_nonneg.
  - by apply IH, IH.
  - by apply shr_1_nonneg.
Qed.

Lemma shr_fexp_nonneg m e l :
  (0 <= m)%Z -> (0 <= shr_m (fst (shr_fexp prec emax m e l)))%Z.
Proof.
  intros Hm. unfold shr_fexp, shr.
  assert (shr_m (shr_record_of_loc m l) = m) as Hrec by by destruct l as [| []].
  destruct (_ - e)%Z; cbn [fst]; rewrite <- Hrec in Hm; [done | | done].
  by apply iter_shr_1_nonneg.
Qed.

Lemma round_nearest_even_nonneg m l : (0 <= m)%Z -> (0 <= round_nearest_even m l)%Z.
Proof. intros Hm. destruct l as [| []]; cbn; try destruct (Z.even m); lia. Qed.

Lemma binary_round_aux_not_NaN sx mx ex lx :
  (0 <= mx)%Z -> is_NaN (binary_round_aux prec emax sx mx ex lx) = false.
Proof.
  intros Hm. unfold binary_round_aux.
  pose proof (shr_fexp_nonneg mx ex lx Hm) as H1.
  destruct (shr_fexp prec emax mx ex lx) as [mrs' e']. cbn [fst] in H1.
  pose proof (shr_fexp_nonneg _ e' loc_Exact
                (round_nearest_even_nonneg _ (loc_of_shr_record mrs') H1)) as H2.
  destruct (shr_fexp prec emax _ e' loc_Exact) as [mrs'' e'']. cbn [fst] in H2.
  destruct (shr_m mrs''); [done | by destruct (_ <=? _)%Z | lia].
Qed.

Lemma binary_normalize_not_NaN m e : is_NaN (binary_normalize prec emax m e false) = false.
Proof.
  unfold binary_normalize, binary_round.
  destruct m; [done | |]; destruct (shl_align _ _ _); by apply binary_round_aux_not_NaN.
Qed.

(** A sum is NaN only if a summand is NaN or the summands are opposite
    infinities; adding the finite 40 to a number gives a number. *)
Lemma add_40_not_NaN h : is_NaN h = false -> is_NaN (add h (of_Z 40)) = false.
Proof.
  intros Hh. replace (of_Z 40) with (S754_finite false 5629499534213120 (-47)%Z)
    by by_computation.
  destruct h as [[|] | [|] | | s m e]; try done.
  unfold add, SFadd. apply binary_normalize_not_NaN.
Qed.

(** [clamp] of a number is a number. *)
Lemma clamp_not_NaN x : is_NaN x = false -> is_NaN (clamp x (of_Z 300) (of_Z 800)) = false.
Proof.
  intros Hx. unfold clamp.
  destruct (ltb x (of_Z 300)); [by_computation |].
  destruct (ltb (of_Z 800) x); [by_computation | exact Hx].
Qed.

End NumberFacts.

(** ** The message handler *)

Section HandlerFacts.

Context `{JsRuntime}.

Lemma accepts_not_nullish payload : accepts payload = true -> is_nullish payload = false.
Proof.
  unfold accepts, optional_member.
  destruct (is_nullish payload); [discriminate | reflexivity].
Qed.

Lemma accepts_height_truthy payload :
  accepts payload = true -> ToBoolean (GetV payload "height") = true.
Proof.
  intros Hacc. pose proof (accepts_not_nullish _ Hacc) as Hnn.
  unfold accepts, optional_member in Hacc. rewrite Hnn in Hacc.
  apply andb_true_iff in Hacc as [_ Hacc]. exact Hacc.
Qed.

Lemma bind_Normal {A B} (a : A) (f : A -> Completion B) : (Normal a ≫= f) = f a.
Proof. reflexivity. Qed.

Lemma js_add_numbers a b :
  js_add (JsPrim (JsNumber a)) (JsPrim (JsNumber b)) = Normal (JsNumber (add a b)).
Proof. reflexivity. Qed.

Lemma Math_max_numbers a b :
  Math_max [JsPrim (JsNumber a); JsPrim (JsNumber b)] = Normal (max_loop neg_Infinity [a; b]).
Proof. reflexivity. Qed.

Lemma Math_min_numbers a b :
  Math_min [JsPrim (JsNumber a); JsPrim (JsNumber b)] = Normal (min_loop pos_Infinity [a; b]).
Proof. reflexivity. Qed.

(** The handler on a payload that passes its guard and has a number as
    height. *)
Lemma handleMessage_number event st h :
  accepts (data event) = true ->
  GetV (data event) "height" = JsPrim (JsNumber h) ->
  handleMessage event st
  = Normal (setIframeHeight (clamp (add h (of_Z 40)) (of_Z 300) (of_Z 800)) st).
Proof.
  intros Hacc Hh. unfold handleMessage. fold (accepts (data event)). rewrite Hacc.
  unfold member. rewrite (accepts_not_nullish _ Hacc), Hh.
  rewrite bind_Normal, js_add_numbers, bind_Normal, Math_max_numbers, bind_Normal,
    Math_min_numbers, bind_Normal, min_max_clamp.
  reflexivity.
Qed.

(** An accepted report with a number as height leaves the height a number
    that is neither below 300 nor above 800. *)
Lemma accepted_report_height_in_range event st h :
  accepts (data event) = true ->
  GetV (data event) "height" = JsPrim (JsNumber h) ->
  exists height' : number,
    handleMessage event st = Normal (setIframeHeight height' st)
    /\ is_NaN height' = false
    /\ ltb height' (of_Z 300) = false
    /\ ltb (of_Z 800) height' = false.
Proof.
  intros Hacc Hh. eexists. split; [by apply handleMessage_number |].
  pose proof (accepts_height_truthy _ Hacc) as Htruthy. rewrite Hh in Htruthy.
  cbn [ToBoolean] in Htruthy. apply negb_true_iff, orb_false_iff in Htruthy as [_ Hnan].
  split; [by apply clamp_not_NaN, add_40_not_NaN | apply clamp_within].
Qed.

Lemma handleMessage_ignored event st :
  accepts (data event) = false -> handleMessage event st = Normal st.
Proof.
  intros Hacc. unfold handleMessage. fold (accepts (data event)). rewrite Hacc. reflexivity.
Qed.

(** Whether the guard lets a payload of the SizeReport shape through is
    decided by its height: it does, unless the height is 0 or NaN. *)
Lemma accepts_is_SizeReport payload h :
  is_SizeReport payload = true ->
  GetV payload "height" = JsPrim (JsNumber h) ->
  accepts payload = negb (is_zero h || is_NaN h).
Proof.
  destruct payload as [p | fields]; [discriminate |].
  unfold is_SizeReport, accepts, optional_member, GetV, strict_equals_string.
  cbn [is_nullish].
  destruct (fields !! "type") as [[[| | | | | t] |] |]; try discriminate.
  destruct (fields !! "height") as [[[| | | n | |] |] |]; try discriminate.
  cbn [default from_option id]. intros -> [= <-]. reflexivity.
Qed.

End HandlerFacts.


(** ** Strings: [replace] on the first occurrence of the pattern *)

Section StringFacts.

Lemma append_nil_l (s : string) : EmptyString +:+ s = s.
Proof. reflexivity. Qed.

Lemma append_cons (ch : ascii) (a b : string) : String ch a +:+ b = String ch (a +:+ b).
Proof. reflexivity. Qed.

Lemma append_assoc (a b c : string) : (a +:+ b) +:+ c = a +:+ (b +:+ c).
Proof.
  induction a as [|ch a IH]; [reflexivity |].
  rewrite !append_cons. by f_equal.
Qed.

Lemma length_append (a b : string) :
  String.length (a +:+ b) = String.length a + String.length b.
Proof.
  induction a as [|ch a IH]; [reflexivity |].
  rewrite append_cons. simpl. by f_equal.
Qed.

Lemma prefix_append (pattern rest : string) : String.prefix pattern (pattern +:+ rest) = true.
Proof.
  induction pattern as [|ch pattern IH]; [by destruct rest |].
  rewrite append_cons. simpl. destruct (ascii_dec ch ch); [exact IH | congruence].
Qed.

Lemma occurrences_unfold (pattern s : string) :
  occurrences pattern s
  = (if String.prefix pattern s then 1 else 0)
    + match s with EmptyString => 0 | String _ rest => occurrences pattern rest end.
Proof. destruct s; reflexivity. Qed.

Lemma StringIndexOf_unfold (s pattern : string) :
  StringIndexOf s pattern
  = if String.prefix pattern s then Some 0
    else match s with
         | EmptyString => None
         | String _ rest => S <$> StringIndexOf rest pattern
         end.
Proof. destruct s; reflexivity. Qed.

Lemma occurrences_append_pos (pattern pre post : string) :
  1 <= occurrences pattern (pre +:+ pattern +:+ post).
Proof.
  induction pre as [|ch pre IH].
  - rewrite append_nil_l, occurrences_unfold, prefix_append. lia.
  - rewrite append_cons, occurrences_unfold. lia.
Qed.

Lemma prefix_decompose (pattern s : string) :
  String.prefix pattern s = true -> exists post : string, s = pattern +:+ post.
Proof.
  revert s. induction pattern as [|ch pattern IH]; intros s Hprefix.
  - by exists s.
  - destruct s as [|ch' s]; [discriminate |]. simpl in Hprefix.
    destruct (ascii_dec ch ch') as [<- |]; [| discriminate].
    destruct (IH s Hprefix) as [post ->]. by exists post.
Qed.

(** A pattern that occurs in a string splits it. *)
Lemma occurrences_decompose (pattern s : string) :
  1 <= occurrences pattern s ->
  exists pre post : string, s = pre +:+ pattern +:+ post.
Proof.
  induction s as [|ch s IH]; rewrite occurrences_unfold; intros Hocc.
  - destruct (String.prefix pattern EmptyString) eqn:Hprefix; [| lia].
    apply prefix_decompose in Hprefix as [post Hpost]. by exists EmptyString, post.
  - destruct (String.prefix pattern (String ch s)) eqn:Hprefix.
    + apply prefix_decompose in Hprefix as [post Hpost]. by exists EmptyString, post.
    + destruct IH as (pre & post & ->); [lia |]. by exists (String ch pre), post.
Qed.

(** Where the pattern occurs once, [StringIndexOf] finds that occurrence. *)
Lemma StringIndexOf_once (pattern pre post : string) :
  occurrences pattern (pre +:+ pattern +:+ post) = 1 ->
  StringIndexOf (pre +:+ pattern +:+ post) pattern = Some (String.length pre).
Proof.
  induction pre as [|ch pre IH]; intros Hocc.
  - rewrite append_nil_l, StringIndexOf_unfold, prefix_append. reflexivity.
  - rewrite append_cons in Hocc |- *.
    rewrite occurrences_unfold in Hocc. rewrite StringIndexOf_unfold. simpl String.length.
    pose proof (occurrences_append_pos pattern pre post) as Hpos.
    destruct (String.prefix pattern (String ch (pre +:+ pattern +:+ post))); [lia |].
    rewrite IH by lia. reflexivity.
Qed.

Lemma StringIndexOf_none (pattern s : string) :
  occurrences pattern s = 0 -> StringIndexOf s pattern = None.
Proof.
  induction s as [|ch s IH]; rewrite occurrences_unfold, StringIndexOf_unfold; intros Hocc.
  - destruct (String.prefix pattern EmptyString); [lia | reflexivity].
  - destruct (String.prefix pattern (String ch s)); [lia |].
    rewrite IH by lia. reflexivity.
Qed.

Lemma substring_to_append (pre rest : string) :
  substring_to (String.length pre) (pre +:+ rest) = pre.
Proof.
  induction pre as [|ch pre IH]; [by destruct rest |].
  rewrite append_cons. simpl. by f_equal.
Qed.

Lemma substring_from_append (pre rest : string) :
  substring_from (String.length pre) (pre +:+ rest) = rest.
Proof. induction pre as [|ch pre IH]; [by destruct rest | exact IH]. Qed.

(** A template without [$] is substituted as it is. *)
Lemma GetSubstitution_literal (matched preceding following template : string) :
  has_dollar template = false ->
  GetSubstitution matched preceding following template = template.
Proof.
  induction template as [|c rest IH]; [reflexivity |].
  cbn [has_dollar]. intros Hd. apply orb_false_iff in Hd as [Hc Hrest].
  specialize (IH Hrest).
  destruct c as [[] [] [] [] [] [] [] []]; try discriminate Hc;
    cbn [GetSubstitution]; rewrite IH; reflexivity.
Qed.

(** [replace] on a string in which the pattern occurs once. *)
Lemma replace_once (pattern template pre post : string) :
  has_dollar template = false ->
  occurrences pattern (pre +:+ pattern +:+ post) = 1 ->
  replace (pre +:+ pattern +:+ post) pattern template = pre +:+ template +:+ post.
Proof.
  intros Hd Hocc. unfold replace. rewrite StringIndexOf_once by exact Hocc.
  rewrite substring_to_append, GetSubstitution_literal by exact Hd.
  rewrite <- length_append, <- (append_assoc pre pattern post), substring_from_append.
  reflexivity.
Qed.

Lemma replace_absent (pattern template s : string) :
  occurrences pattern s = 0 -> replace s pattern template = s.
Proof. intros Hocc. unfold replace. by rewrite StringIndexOf_none. Qed.

(** Where the pattern occurs, [StringIndexOf] finds the first occurrence,
    and [replace] with a template without [$] puts the template in its
    place. *)
Lemma replace_first (pattern template s : string) :
  has_dollar template = false ->
  1 <= occurrences pattern s ->
  exists pre post : string,
    s = pre +:+ pattern +:+ post
    /\ StringIndexOf s pattern = Some (String.length pre)
    /\ replace s pattern template = pre +:+ template +:+ post.
Proof.
  intros Hd Hocc.
  assert (exists pre post : string,
             s = pre +:+ pattern +:+ post
             /\ StringIndexOf s pattern = Some (String.length pre))
    as (pre & post & -> & Hindex).
  { induction s as [| ch s IH]; rewrite occurrences_unfold in Hocc;
      rewrite StringIndexOf_unfold.
    - destruct (String.prefix pattern EmptyString) eqn:Hprefix; [| lia].
      apply prefix_decompose in Hprefix as [post Hpost]. by exists EmptyString, post.
    - destruct (String.prefix pattern (String ch s)) eqn:Hprefix.
      + apply prefix_decompose in Hprefix as [post Hpost]. by exists EmptyString, post.
      + destruct IH as (pre & post & -> & ->); [lia |]. by exists (String ch pre), post. }
  exists pre, post. split; [reflexivity | split; [exact Hindex |]].
  unfold replace. rewrite Hindex.
  rewrite substring_to_append, GetSubstitution_literal by exact Hd.
  rewrite <- length_append, <- (append_assoc pre pattern post), substring_from_append.
  reflexivity.
Qed.

End StringFacts.


(** ** The viewer's actions *)

Section ViewerFacts.

Context `{JsRuntime}.

(** The guard, spelled out. *)
Lemma accepts_spec payload :
  accepts payload = true <->
  exists (fields : gmap string JsValue) (height : JsValue),
    payload = JsObject fields
    /\ fields !! "type" = Some (JsPrim (JsString "resize"))
    /\ fields !! "height" = Some height
    /\ ToBoolean height = true.
Proof.
  unfold accepts, optional_member, GetV, strict_equals_string. split.
  - destruct payload as [p | fields]; [by destruct p |].
    cbn [is_nullish]. intros [Ht Hh]%andb_true_iff.
    destruct (fields !! "type") as [[[] | ] | ] eqn:Etype; try discriminate Ht.
    apply String.eqb_eq in Ht as ->.
    destruct (fields !! "height") as [height | ] eqn:Eheight; [| discriminate Hh].
    by exists fields, height.
  - intros (fields & height & -> & Ht & Hh & Htruthy).
    cbn [is_nullish]. rewrite Ht, Hh. cbn [from_option id]. rewrite Htruthy.
    reflexivity.
Qed.

(** The handler writes no cell but [iframeHeight]. *)
Lemma handleMessage_frame event st st' :
  handleMessage event st = Normal st' ->
  isExpanded st' = isExpanded st /\ isLoaded st' = isLoaded st.
Proof.
  unfold handleMessage.
  destruct (_ && _); [| by intros [= <-]].
  destruct (member _ _) as [height | ]; [| discriminate].
  rewrite bind_Normal.
  destruct (js_add _ _) as [sum | ]; [| discriminate].
  rewrite bind_Normal.
  destruct (Math_max _) as [highest | ]; [| discriminate].
  rewrite bind_Normal.
  destruct (Math_min _) as [lowest | ]; [| discriminate].
  rewrite bind_Normal. by intros [= <-].
Qed.

Lemma dispatch_message_frame event st :
  isExpanded (dispatch_message event st) = isExpanded st
  /\ isLoaded (dispatch_message event st) = isLoaded st.
Proof.
  unfold dispatch_message.
  destruct (handleMessage event st) as [st' | ] eqn:E; [| done].
  by apply handleMessage_frame in E.
Qed.

Lemma handleRefresh_hooks v : hooks (handleRefresh v) = hooks v.
Proof.
  unfold handleRefresh.
  destruct (iframeRef v); [| done].
  destruct (if_truthy (htmlContent (props v))); [done |].
  by destruct (if_truthy (url (props v))).
Qed.

Lemma handleRefresh_props v : props (handleRefresh v) = props v.
Proof.
  unfold handleRefresh.
  destruct (iframeRef v); [| done].
  destruct (if_truthy (htmlContent (props v))); [done |].
  by destruct (if_truthy (url (props v))).
Qed.

(** Refresh with inline HTML assigns the prop itself to [srcdoc]. *)
Lemma handleRefresh_inline v el html :
  iframeRef v = Some el ->
  if_truthy (htmlContent (props v)) = Some html ->
  iframeRef (handleRefresh v) = Some (set_srcdoc html el).
Proof. intros Hel Hhtml. unfold handleRefresh. by rewrite Hel, Hhtml. Qed.

(** Refresh without inline HTML assigns the URL to [src]. *)
Lemma handleRefresh_url v el address :
  iframeRef v = Some el ->
  if_truthy (htmlContent (props v)) = None ->
  if_truthy (url (props v)) = Some address ->
  iframeRef (handleRefresh v) = Some (set_src address el).
Proof. intros Hel Hhtml Hurl. unfold handleRefresh. by rewrite Hel, Hhtml, Hurl. Qed.

Lemma openInNewTab_viewer v w : fst (openInNewTab (v, w)) = v.
Proof.
  unfold openInNewTab.
  destruct (if_truthy (htmlContent (props v))); [done |].
  by destruct (if_truthy (url (props v))).
Qed.

Lemma toggleExpanded_involutive st : toggleExpanded (toggleExpanded st) = st.
Proof.
  destruct st as [expanded loaded height]. unfold toggleExpanded, setIsExpanded. cbn.
  by rewrite negb_involutive.
Qed.

Lemma with_hooks_hooks v : with_hooks (hooks v) v = v.
Proof. by destruct v. Qed.

Lemma with_hooks_twice st st' v : with_hooks st (with_hooks st' v) = with_hooks st v.
Proof. reflexivity. Qed.

End ViewerFacts.


(** ** What the iframe is navigated to *)

Section NavigationFacts.

Context `{JsRuntime}.

Lemma if_truthy_Some (prop : option string) (s : string) :
  if_truthy prop = Some s -> prop = Some s /\ String.eqb s "" = false.
Proof.
  unfold if_truthy. destruct prop as [s' |]; [| discriminate].
  destruct (String.eqb s' "") eqn:E; [discriminate |].
  by intros [= <-].
Qed.



(** Where [</body>] occurs once, the document with the script is not the
    prop: it is longer. *)
Lemma replace_once_differs (pre post : string) :
  occurrences "</body>" (pre +:+ "</body>" +:+ post) = 1 ->
  replace (pre +:+ "</body>" +:+ post) "</body>" (resize_script +:+ "</body>")
  <> pre +:+ "</body>" +:+ post.
Proof.
  intros Honce. rewrite replace_once by (by_computation || exact Honce).
  intros Heq%(f_equal String.length). rewrite !length_append in Heq.
  vm_compute (String.length resize_script) in Heq. lia.
Qed.

Lemma inline_only_mount (p : InteractiveOutputProps) (html : string) :
  if_truthy (htmlContent p) = Some html -> inline_only p (mount p).
Proof.
  intros Hinline. split; [reflexivity |].
  unfold mount, render, enhancedHtml. rewrite Hinline. cbn.
  eexists. split; [reflexivity |]. split; [reflexivity |].
  repeat constructor. by eexists.
Qed.

Lemma inline_only_step (p : InteractiveOutputProps) (html : string)
    (a : Action) (v : Viewer) (w : Window) :
  if_truthy (htmlContent p) = Some html ->
  inline_only p v -> inline_only p (fst (step a (v, w))).
Proof.
  intros Hinline (Hprops & el & Hel & Hsrc & Hdocs).
  destruct a; cbn [step fst]; try (by split; [| exists el]).
  - unfold handleRefresh. rewrite Hel, Hprops, Hinline.
    split; [exact Hprops |].
    eexists. split; [reflexivity |]. split; [exact Hsrc |].
    cbn. constructor; [by eexists | exact Hdocs].
  - rewrite openInNewTab_viewer. by split; [| exists el].
Qed.

(** With inline HTML, whatever happens to the viewer, the URL is never
    loaded. *)
Lemma inline_html_takes_precedence (p : InteractiveOutputProps) (html : string)
    (actions : list Action) (w : Window) :
  if_truthy (htmlContent p) = Some html ->
  inline_only p (fst (run actions (mount p, w))).
Proof.
  intros Hinline. unfold run.
  assert (forall world, inline_only p (fst world) ->
            inline_only p (fst (foldl (fun world a => step a world) world actions))) as Hrun.
  { induction actions as [| a actions IH]; intros [v w'] Hinv; [exact Hinv |].
    cbn [foldl]. apply IH.
    destruct (step a (v, w')) as [v' w''] eqn:Estep.
    change v' with (fst (v', w'')). rewrite <- Estep.
    by eapply inline_only_step. }
  apply Hrun. by eapply inline_only_mount.
Qed.

End NavigationFacts.

(** * The sizing channel *)

(** C1, as the code has it: a SizeReport whose height [h] is neither 0 nor
    NaN sets the height to [clamp(h + 40, 300, 800)], whatever the state
    before, and nothing is thrown: the new height is a number from 300 to
    800, so a height beyond the bounds is clamped, not rejected.  Reports of
    1000 and of 100 give 800 and 300; the margin shows at 600, which gives
    640, and next to the bounds: 260 gives 300, 261 gives 301, 759 gives 799
    and 760 gives 800.  A SizeReport whose height is 0 or NaN does not pass
    the guard: the state is left as it is. *)
Theorem C1_SizeReport_sets_clamped_height
    (R : JsRuntime) (st : ViewerState) (origin : string) :
  (forall (event : MessageEvent) (h : number),
      is_SizeReport (data event) = true ->
      GetV (data event) "height" = JsPrim (JsNumber h) ->
      is_zero h = false ->
      is_NaN h = false ->
      handleMessage event st
      = Normal {| isExpanded := isExpanded st;
                  isLoaded := isLoaded st;
                  iframeHeight := clamp (add h (of_Z 40)) (of_Z 300) (of_Z 800) |}
      /\ iframeHeight (dispatch_message event st)
         = clamp (add h (of_Z 40)) (of_Z 300) (of_Z 800)
      /\ is_NaN (iframeHeight (dispatch_message event st)) = false
      /\ ltb (iframeHeight (dispatch_message event st)) (of_Z 300) = false
      /\ ltb (of_Z 800) (iframeHeight (dispatch_message event st)) = false)
  /\ (forall (event : MessageEvent) (h : number),
         is_SizeReport (data event) = true ->
         GetV (data event) "height" = JsPrim (JsNumber h) ->
         (is_zero h || is_NaN h) = true ->
         handleMessage event st = Normal st)
  /\ iframeHeight (dispatch_message {| data := SizeReport (of_Z 1000); origin := origin |} st)
     = of_Z 800
  /\ iframeHeight (dispatch_message {| data := SizeReport (of_Z 100); origin := origin |} st)
     = of_Z 300
  /\ iframeHeight (dispatch_message {| data := SizeReport (of_Z 600); origin := origin |} st)
     = of_Z 640
  /\ iframeHeight (dispatch_message {| data := SizeReport (of_Z 260); origin := origin |} st)
     = of_Z 300
  /\ iframeHeight (dispatch_message {| data := SizeReport (of_Z 261); origin := origin |} st)
     = of_Z 301
  /\ iframeHeight (dispatch_message {| data := SizeReport (of_Z 759); origin := origin |} st)
     = of_Z 799
  /\ iframeHeight (dispatch_message {| data := SizeReport (of_Z 760); origin := origin |} st)
     = of_Z 800.
Proof.
  assert (forall (event : MessageEvent) (h : number),
             is_SizeReport (data event) = true ->
             GetV (data event) "height" = JsPrim (JsNumber h) ->
             is_zero h = false ->
             is_NaN h = false ->
             handleMessage event st
             = Normal (setIframeHeight (clamp (add h (of_Z 40)) (of_Z 300) (of_Z 800)) st))
    as Hset.
  { intros event h Hshape Hheight Hzero Hnan. apply handleMessage_number; [| exact Hheight].
    by rewrite (accepts_is_SizeReport _ h), Hzero, Hnan. }
  assert (forall z : Z,
             is_zero (of_Z z) = false ->
             is_NaN (of_Z z) = false ->
             iframeHeight (dispatch_message {| data := SizeReport (of_Z z); origin := origin |} st)
             = clamp (add (of_Z z) (of_Z 40)) (of_Z 300) (of_Z 800)) as Hreport.
  { intros z Hzero Hnan. unfold dispatch_message.
    by rewrite (Hset _ (of_Z z)). }
  split; [| split].
  - intros event h Hshape Hheight Hzero Hnan.
    unfold dispatch_message. rewrite (Hset event h) by done.
    cbn [iframeHeight setIframeHeight].
    split; [reflexivity | split; [reflexivity |]].
    split; [by apply clamp_not_NaN, add_40_not_NaN | apply clamp_within].
  - intros event h Hshape Hheight Hfalsy. apply handleMessage_ignored.
    by rewrite (accepts_is_SizeReport _ h), Hfalsy.
  - repeat split; rewrite Hreport by by_computation; by_computation.
Qed.

(** C1 at a report of height 600 to a viewer in its initial state. *)
Lemma C1_witness :
  (is_SizeReport (SizeReport (of_Z 600)) = true
   /\ GetV (SizeReport (of_Z 600)) "height" = JsPrim (JsNumber (of_Z 600))
   /\ is_zero (of_Z 600) = false
   /\ is_NaN (of_Z 600) = false)
  /\ forall R : JsRuntime,
      iframeHeight
        (dispatch_message {| data := SizeReport (of_Z 600); origin := "null" |} initial_state)
      = clamp (add (of_Z 600) (of_Z 40)) (of_Z 300) (of_Z 800).
Proof.
  split.
  - repeat split; vm_compute; reflexivity.
  - intros R.
    apply (proj1 (C1_SizeReport_sets_clamped_height R initial_state "null")
             {| data := SizeReport (of_Z 600); origin := "null" |} (of_Z 600));
      vm_compute; reflexivity.
Defined.

(** C1, as stated, fails whatever the engine: [{type: "resize", height: 0}]
    is a SizeReport, and it leaves a viewer in its initial state at 450,
    where [clamp(0 + 40, 300, 800)] is 300. *)
Lemma C1_counterexample :
  ~ (exists R : JsRuntime,
        forall (event : MessageEvent) (h : number) (st : ViewerState),
          is_SizeReport (data event) = true ->
          GetV (data event) "height" = JsPrim (JsNumber h) ->
          iframeHeight (dispatch_message event st)
          = clamp (add h (of_Z 40)) (of_Z 300) (of_Z 800)).
Proof.
  intros [R Hclamped].
  specialize (Hclamped {| data := SizeReport (of_Z 0); origin := "null" |} (of_Z 0)
                initial_state eq_refl eq_refl).
  vm_compute in Hclamped. discriminate Hclamped.
Qed.

(** C2, as the code has it: a payload that fails the handler's guard (its
    [type] is not the string "resize", or its [height] is missing or falsy)
    is ignored: the state is the one before and nothing is thrown. *)
Theorem C2_payload_failing_guard_ignored
    (R : JsRuntime) (event : MessageEvent) (st : ViewerState) :
  accepts (data event) = false ->
  handleMessage event st = Normal st /\ dispatch_message event st = st.
Proof.
  intros Haccepts. unfold dispatch_message.
  by rewrite handleMessage_ignored.
Qed.

(** C2 at the payload [{foo: "bar"}] and a viewer in its initial state. *)
Lemma C2_witness :
  accepts (JsObject {[ "foo" := JsPrim (JsString "bar") ]}) = false
  /\ forall R : JsRuntime,
      handleMessage {| data := JsObject {[ "foo" := JsPrim (JsString "bar") ]};
                       origin := "null" |} initial_state = Normal initial_state
      /\ dispatch_message {| data := JsObject {[ "foo" := JsPrim (JsString "bar") ]};
                             origin := "null" |} initial_state = initial_state.
Proof.
  split.
  - vm_compute; reflexivity.
  - intros R.
    apply (C2_payload_failing_guard_ignored R
             {| data := JsObject {[ "foo" := JsPrim (JsString "bar") ]}; origin := "null" |}
             initial_state).
    vm_compute; reflexivity.
Defined.

(** The handler on [{type: "resize", height: true}]: [true + 40] is 41,
    [Math.max(41, 300)] is 300 and [Math.min(300, 800)] is 300. *)
Lemma handleMessage_height_true (R : JsRuntime) (origin : string) (st : ViewerState) :
  handleMessage
    {| data := JsObject {[ "type" := JsPrim (JsString "resize");
                           "height" := JsPrim (JsBoolean true) ]};
       origin := origin |} st
  = Normal (setIframeHeight (of_Z 300) st).
Proof. by_computation. Qed.

(** C2, as stated, fails whatever the engine: [{type: "resize", height: true}]
    is not of the shape [{type: "resize", height: number}], and the handler
    takes the height of a viewer in its initial state from 450 to 300. *)
Lemma C2_counterexample :
  ~ (exists R : JsRuntime,
        forall (event : MessageEvent) (st : ViewerState),
          is_SizeReport (data event) = false -> dispatch_message event st = st).
Proof.
  intros [R Hignored].
  specialize (Hignored
    {| data := JsObject {[ "type" := JsPrim (JsString "resize");
                           "height" := JsPrim (JsBoolean true) ]};
       origin := "null" |}
    initial_state).
  unfold dispatch_message in Hignored. rewrite handleMessage_height_true in Hignored.
  assert (iframeHeight (setIframeHeight (of_Z 300) initial_state)
          = iframeHeight initial_state) as Hheight
    by (f_equal; apply Hignored; by_computation).
  vm_compute in Hheight. discriminate Hheight.
Qed.

(** C9: a report of height 0 has the shape of a SizeReport and is ignored
    all the same: the state is the one before, so a viewer at 450 stays at
    450 and does not go to the lower bound 300. *)
Theorem C9_zero_height_ignored (R : JsRuntime) (st : ViewerState) (origin : string) :
  is_SizeReport (SizeReport (of_Z 0)) = true
  /\ ToBoolean (JsPrim (JsNumber (of_Z 0))) = false
  /\ handleMessage {| data := SizeReport (of_Z 0); origin := origin |} st = Normal st
  /\ dispatch_message {| data := SizeReport (of_Z 0); origin := origin |} st = st
  /\ iframeHeight (dispatch_message {| data := SizeReport (of_Z 0); origin := origin |}
                     initial_state) <> of_Z 300.
Proof.
  repeat split; by_computation.
Qed.

(** * The content source and the refresh action *)

(** C5: in inline HTML where [</body>] occurs once, one script element, the
    one written out below, is put immediately before it and nothing else
    changes; inline HTML without [</body>] is passed on as it is.  The text
    put in is a single script element: it opens with [<script>], closes
    with [</script>], has no other script tag inside and no [</body>].
    [enhancedHtml] is a total function: nothing is thrown. *)
Theorem C5_script_injected_before_closing_body (p : InteractiveOutputProps) (html : string) :
  if_truthy (htmlContent p) = Some html ->
  let script_block :=
    "<script>
                new ResizeObserver(() => {
                    parent.postMessage({ type: 'resize', height: document.body.scrollHeight }, '*');
                }).observe(document.body);
                setTimeout(() => {
                    parent.postMessage({ type: 'resize', height: document.body.scrollHeight }, '*');
                }, 1000);
              </script>" in
  (forall pre post : string,
      html = pre +:+ "</body>" +:+ post ->
      occurrences "</body>" html = 1 ->
      enhancedHtml p = Some (pre +:+ script_block +:+ "</body>" +:+ post))
  /\ (occurrences "</body>" html = 1 ->
      exists pre post : string,
        html = pre +:+ "</body>" +:+ post
        /\ enhancedHtml p = Some (pre +:+ script_block +:+ "</body>" +:+ post))
  /\ (occurrences "</body>" html = 0 -> enhancedHtml p = Some html)
  /\ (exists inner : string,
         script_block = "<script>" +:+ inner +:+ "</script>"
         /\ occurrences "<script" inner = 0
         /\ occurrences "</script" inner = 0)
  /\ occurrences "</body>" script_block = 0
  /\ String.length script_block = 381.
Proof.
  intros Hinline script_block.
  change script_block with resize_script. clear script_block.
  unfold enhancedHtml. rewrite Hinline.
  assert (forall pre post : string,
             html = pre +:+ "</body>" +:+ post ->
             occurrences "</body>" html = 1 ->
             Some (replace html "</body>" (resize_script +:+ "</body>"))
             = Some (pre +:+ resize_script +:+ "</body>" +:+ post)) as Hplaced.
  { intros pre post -> Honce.
    rewrite replace_once by (by_computation || exact Honce).
    by rewrite append_assoc. }
  split; [exact Hplaced | split; [| split; [| split; [| split]]]].
  - intros Honce.
    destruct (occurrences_decompose "</body>" html) as (pre & post & Hsplit); [lia |].
    exists pre, post. split; [exact Hsplit | by apply Hplaced].
  - intros Habsent. by rewrite replace_absent.
  - exists (String.substring 8 364 resize_script). repeat split; by_computation.
  - by_computation.
  - by_computation.
Qed.

(** C5 at the inline HTML of the specification's scenario. *)
Lemma C5_witness :
  (if_truthy (htmlContent {| url := None;
                             htmlContent := Some "<html><body><div>hi</div></body></html>" |})
   = Some "<html><body><div>hi</div></body></html>"
   /\ "<html><body><div>hi</div></body></html>"
      = "<html><body><div>hi</div>" +:+ "</body>" +:+ "</html>"
   /\ occurrences "</body>" "<html><body><div>hi</div></body></html>" = 1)
  /\ enhancedHtml {| url := None;
                     htmlContent := Some "<html><body><div>hi</div></body></html>" |}
     = Some ("<html><body><div>hi</div>"
             +:+
             "<script>
                new ResizeObserver(() => {
                    parent.postMessage({ type: 'resize', height: document.body.scrollHeight }, '*');
                }).observe(document.body);
                setTimeout(() => {
                    parent.postMessage({ type: 'resize', height: document.body.scrollHeight }, '*');
                }, 1000);
              </script>"
             +:+ "</body>" +:+ "</html>").
Proof.
  split.
  - repeat split; vm_compute; reflexivity.
  - destruct (C5_script_injected_before_closing_body
                {| url := None;
                   htmlContent := Some "<html><body><div>hi</div></body></html>" |}
                "<html><body><div>hi</div></body></html>" eq_refl) as [Hplaced _].
    apply (Hplaced "<html><body><div>hi</div>" "</html>"); vm_compute; reflexivity.
Defined.

(** C3, on the code: with inline HTML, the first load shows the document
    with the script, and the refresh loads the [htmlContent] prop itself,
    which has no script. *)
Theorem C3_refresh_loads_html_without_script :
  let html := "<html><body><div>hi</div></body></html>" in
  let enhanced := "<html><body><div>hi</div>" +:+ resize_script +:+ "</body></html>" in
  let v := mount {| url := None; htmlContent := Some html |} in
  (iframeRef v ≫= current_document) = Some (SrcdocDocument enhanced)
  /\ (iframeRef (handleRefresh v) ≫= current_document) = Some (SrcdocDocument html)
  /\ SrcdocDocument html <> SrcdocDocument enhanced.
Proof. repeat split; by_computation. Qed.

(** C10, on the code: with both props, the first load shows the inline
    document with the script and no [src] is set; the refresh sets no [src]
    either, and loads the [htmlContent] prop itself, which has no script. *)
Theorem C10_refresh_with_both_props :
  let html := "<html><body><div>hi</div></body></html>" in
  let enhanced := "<html><body><div>hi</div>" +:+ resize_script +:+ "</body></html>" in
  let v := mount {| url := Some "https://example.com/widget.html";
                    htmlContent := Some html |} in
  (src <$> iframeRef v) = Some None
  /\ (navigations <$> iframeRef v) = Some [SrcdocDocument enhanced]
  /\ (src <$> iframeRef (handleRefresh v)) = Some None
  /\ (navigations <$> iframeRef (handleRefresh v))
     = Some [SrcdocDocument html; SrcdocDocument enhanced]
  /\ SrcdocDocument html <> SrcdocDocument enhanced.
Proof. repeat split; by_computation. Qed.

(** C4, as the code has it: refresh leaves [isLoaded] as it was; the load
    event sets it; after any action it is true exactly if it was true
    before or the action is the load event, so nothing sets it back.  A
    viewer is mounted with [isLoaded] false. *)
Theorem C4_refresh_keeps_loaded (R : JsRuntime) (a : Action) (v : Viewer) (w : Window) :
  isLoaded (hooks (handleRefresh v)) = isLoaded (hooks v)
  /\ isLoaded (hooks (fst (step IframeLoad (v, w)))) = true
  /\ isLoaded (hooks (fst (step a (v, w))))
     = (isLoaded (hooks v) || match a with IframeLoad => true | _ => false end)
  /\ (forall p : InteractiveOutputProps, isLoaded (hooks (mount p)) = false).
Proof.
  split; [by rewrite handleRefresh_hooks | split; [reflexivity | split; [| done]]].
  destruct a; cbn [step fst hooks with_hooks].
  - by rewrite handleRefresh_hooks, orb_false_r.
  - by rewrite openInNewTab_viewer, orb_false_r.
  - by rewrite orb_false_r.
  - by rewrite orb_false_r.
  - by rewrite orb_true_r.
  - rewrite orb_false_r. apply dispatch_message_frame.
Qed.

(** C4, as stated, fails: a viewer whose iframe has loaded is still marked
    loaded after the refresh. *)
Lemma C4_counterexample :
  let v := with_hooks (onLoad initial_state)
             (mount {| url := Some "https://example.com/widget.html";
                       htmlContent := None |}) in
  isLoaded (hooks (handleRefresh v)) <> false.
Proof. by_computation. Qed.


(** * The toolbar *)

(** C7: toggling twice gives back the state; toggling leaves [iframeHeight]
    alone; the iframe's height is the viewport's when expanded and
    [iframeHeight] pixels when collapsed, so after two toggles it is
    rendered as before. *)
Theorem C7_toggleExpanded_involution (p : InteractiveOutputProps) (st : ViewerState) :
  toggleExpanded (toggleExpanded st) = st
  /\ isExpanded (toggleExpanded st) = negb (isExpanded st)
  /\ iframeHeight (toggleExpanded st) = iframeHeight st
  /\ isLoaded (toggleExpanded st) = isLoaded st
  /\ style_height (render p st)
     = (if isExpanded st then CalcViewportHeightMinusPx 80 else Px (iframeHeight st))
  /\ render p (toggleExpanded (toggleExpanded st)) = render p st.
Proof.
  repeat split; try reflexivity.
  - apply toggleExpanded_involutive.
  - by rewrite toggleExpanded_involutive.
Qed.

(** C8: opening in a new tab leaves the viewer as it is (props, state
    cells, iframe); with inline HTML it stores a [text/html] blob holding
    the [htmlContent] prop and opens the blob's URL in a new tab; with a URL
    only, it opens that URL in a new tab. *)
Theorem C8_openInNewTab_leaves_viewer (v : Viewer) (w : Window) :
  fst (openInNewTab (v, w)) = v
  /\ (forall html : string,
         if_truthy (htmlContent (props v)) = Some html ->
         snd (openInNewTab (v, w))
         = {| objectURLs := objectURLs w ++ [ {| blobParts := [html]; blobType := "text/html" |} ];
              opened := (ObjectURL (length (objectURLs w)), "_blank") :: opened w |})
  /\ (forall address : string,
         if_truthy (htmlContent (props v)) = None ->
         if_truthy (url (props v)) = Some address ->
         snd (openInNewTab (v, w))
         = {| objectURLs := objectURLs w;
              opened := (AddressString address, "_blank") :: opened w |}).
Proof.
  split; [apply openInNewTab_viewer | split].
  - intros html Hinline. unfold openInNewTab. by rewrite Hinline.
  - intros address Hinline Hurl. unfold openInNewTab. by rewrite Hinline, Hurl.
Qed.

(** C8 at a freshly mounted viewer with inline HTML and a window that has
    opened nothing yet. *)
Lemma C8_witness :
  if_truthy (htmlContent (props (mount {| url := None; htmlContent := Some "<p>hi</p>" |})))
  = Some "<p>hi</p>"
  /\ snd (openInNewTab (mount {| url := None; htmlContent := Some "<p>hi</p>" |},
                        {| objectURLs := []; opened := [] |}))
     = {| objectURLs := [ {| blobParts := ["<p>hi</p>"]; blobType := "text/html" |} ];
          opened := [(ObjectURL 0, "_blank")] |}.
Proof.
  split.
  - vm_compute; reflexivity.
  - apply (proj1 (proj2 (C8_openInNewTab_leaves_viewer
                           (mount {| url := None; htmlContent := Some "<p>hi</p>" |})
                           {| objectURLs := []; opened := [] |}))
             "<p>hi</p>").
    vm_compute; reflexivity.
Defined.

(** * The injected script *)

Import InjectedScript.

(** C6, as the code has it: into every inline HTML that contains [</body>]
    the resolver puts the same script element, before the first [</body>].
    Read as the browser reads it, the element holds the program written
    out below.  Run in a document that has a body element, the program
    ends normally with one resize observer on the body and one timer, due
    after 1000 ms; from then on every change of the body's size posts
    [{type: 'resize', height: <scroll height>}] to the parent with target
    origin ['*'], and so does the timer, once, when the clock reaches
    1000 ms.  Run in a document that has no body element, the program
    throws a TypeError at [observe]: the observer observes nothing, no
    timer is set, and no event makes it post anything. *)
Theorem C6_injected_script_reports_height (p : InteractiveOutputProps) (html : string) :
  if_truthy (htmlContent p) = Some html ->
  1 <= occurrences "</body>" html ->
  let report_call :=
    CallExpression (MemberExpression (Identifier "parent") "postMessage")
      [ObjectExpression
         [("type", StringLiteral "resize");
          ("height",
           MemberExpression (MemberExpression (Identifier "document") "body")
             "scrollHeight")];
       StringLiteral "*"] in
  let program :=
    [CallExpression
       (MemberExpression
          (NewExpression (Identifier "ResizeObserver")
             [ArrowFunctionExpression [report_call]])
          "observe")
       [MemberExpression (Identifier "document") "body"];
     CallExpression (Identifier "setTimeout")
       [ArrowFunctionExpression [report_call]; NumericLiteral 1000]] in
  let report (doc : EmbeddedDocument) : Posted :=
    {| message :=
         JsObject {[ "type" := JsPrim (JsString "resize");
                     "height" := JsPrim (JsNumber (of_Z (body_scrollHeight doc))) ]};
       targetOrigin := "*" |} in
  (exists pre post : string,
      html = pre +:+ "</body>" +:+ post
      /\ StringIndexOf html "</body>" = Some (String.length pre)
      /\ enhancedHtml p = Some (pre +:+ resize_script +:+ "</body>" +:+ post))
  /\ parse_script_element resize_script = Some program
  /\ (forall (depth : nat) (doc : EmbeddedDocument),
         run_script depth (WithBody doc) program
         = Some (Normal tt,
                 {| now := 0;
                    observers := [(FunctionValue [report_call], [DocumentBody])];
                    timers := [(1000%Z, FunctionValue [report_call])];
                    timers_set := 1;
                    posted := [] |}))
  /\ (forall (depth : nat) (doc : EmbeddedDocument) (w : EmbeddedWindow),
         observers w = [(FunctionValue [report_call], [DocumentBody])] ->
         deliver depth (Resized DocumentBody) (WithBody doc) w
         = Some {| now := now w;
                   observers := observers w;
                   timers := timers w;
                   timers_set := timers_set w;
                   posted := (posted w ++ [report doc])%list |})
  /\ (forall (depth : nat) (doc : EmbeddedDocument) (w : EmbeddedWindow) (ms : Z),
         timers w = [(1000%Z, FunctionValue [report_call])] ->
         deliver depth (Elapsed ms) (WithBody doc) w
         = Some {| now := now w + ms;
                   observers := observers w;
                   timers := if (1000 <=? now w + ms)%Z then [] else timers w;
                   timers_set := timers_set w;
                   posted := if (1000 <=? now w + ms)%Z
                             then (posted w ++ [report doc])%list
                             else posted w |})
  /\ (forall doc : EmbeddedDocument,
         is_SizeReport (message (report doc)) = true
         /\ GetV (message (report doc)) "height"
            = JsPrim (JsNumber (of_Z (body_scrollHeight doc)))
         /\ message (report doc) = resize_message doc)
  /\ (forall depth : nat,
         run_script depth WithoutBody program
         = Some (Throw TypeError,
                 {| now := 0;
                    observers := [(FunctionValue [report_call], [])];
                    timers := [];
                    timers_set := 0;
                    posted := [] |}))
  /\ (forall (depth : nat) (ev : EmbeddedEvent) (doc : DocumentState) (w : EmbeddedWindow),
         observers w = [(FunctionValue [report_call], [])] ->
         timers w = [] ->
         exists w' : EmbeddedWindow,
           deliver depth ev doc w = Some w'
           /\ posted w' = posted w
           /\ observers w' = observers w
           /\ timers w' = []).
Proof.
  intros Hinline Hcontains report_call program report.
  split; [| split; [| split; [| split; [| split; [| split; [| split]]]]]].
  - destruct (replace_first "</body>" (resize_script +:+ "</body>") html)
      as (pre & post & Hsplit & Hindex & Hreplace); [by_computation | exact Hcontains |].
    exists pre, post. split; [exact Hsplit | split; [exact Hindex |]].
    unfold enhancedHtml. rewrite Hinline, Hreplace. by rewrite append_assoc.
  - vm_compute. reflexivity.
  - intros depth doc. destruct depth; vm_compute; reflexivity.
  - intros depth [height] [now observers timers timers_set posted] Hobservers.
    cbn in Hobservers. subst observers.
    destruct depth; reflexivity.
  - intros depth [height] [now observers timers timers_set posted] ms Htimers.
    cbn in Htimers. subst timers.
    unfold deliver. cbn [InjectedScript.now InjectedScript.timers List.filter].
    unfold is_due. cbn [fst].
    destruct (1000 <=? now + ms)%Z; destruct depth; reflexivity.
  - intros [height]. split; [| split]; reflexivity.
  - intros depth. destruct depth; vm_compute; reflexivity.
  - intros depth ev doc [now observers timers timers_set posted] Hobservers Htimers.
    cbn in Hobservers, Htimers. subst observers timers.
    destruct ev as [[] | ms]; eexists; (split; [reflexivity |]); by repeat split.
Qed.

(** C6 at the inline HTML of the specification's scenario and a body 600
    pixels high. *)
Lemma C6_witness :
  (if_truthy (htmlContent {| url := None;
                             htmlContent := Some "<html><body><div>hi</div></body></html>" |})
   = Some "<html><body><div>hi</div></body></html>"
   /\ 1 <= occurrences "</body>" "<html><body><div>hi</div></body></html>")
  /\ (exists pre post : string,
         "<html><body><div>hi</div></body></html>" = pre +:+ "</body>" +:+ post
         /\ StringIndexOf "<html><body><div>hi</div></body></html>" "</body>"
            = Some (String.length pre)
         /\ enhancedHtml {| url := None;
                            htmlContent := Some "<html><body><div>hi</div></body></html>" |}
            = Some (pre +:+ resize_script +:+ "</body>" +:+ post))
  /\ (posted <$>
        (w ← snd <$> (program ← parse_script_element resize_script;
                      run_script 0 (WithBody {| body_scrollHeight := 600 |}) program);
         deliver 0 (Resized DocumentBody) (WithBody {| body_scrollHeight := 600 |}) w))
     = Some [ {| message := JsObject {[ "type" := JsPrim (JsString "resize");
                                        "height" := JsPrim (JsNumber (of_Z 600)) ]};
                 targetOrigin := "*" |} ].
Proof.
  assert (1 <= occurrences "</body>" "<html><body><div>hi</div></body></html>") as Hcontains
    by (vm_compute; lia).
  split; [split; [reflexivity | exact Hcontains] |].
  pose proof (C6_injected_script_reports_height
                {| url := None;
                   htmlContent := Some "<html><body><div>hi</div></body></html>" |}
                "<html><body><div>hi</div></body></html>" eq_refl Hcontains) as Hscript.
  cbv zeta in Hscript.
  destruct Hscript as (Hplaced & Hparse & Hrun & Hresized & _).
  split; [exact Hplaced |].
  rewrite Hparse. cbn [mbind option_bind].
  rewrite (Hrun 0 {| body_scrollHeight := 600 |}). cbn [fmap option_fmap option_map snd mbind option_bind].
  rewrite (Hresized 0 {| body_scrollHeight := 600 |}) by reflexivity.
  reflexivity.
Defined.

(** C6, as stated, fails.  The inline HTML [</body><p>hi</p>] contains
    [</body>]; the script element is put at its very start, so that the
    parser runs it before the document has a body element.  There the
    program ends by throwing, with no node observed and no timer set. *)
Lemma C6_counterexample :
  ~ (forall (p : InteractiveOutputProps) (html : string) (doc : DocumentState) (depth : nat),
        if_truthy (htmlContent p) = Some html ->
        1 <= occurrences "</body>" html ->
        exists (program : Program) (w : EmbeddedWindow),
          parse_script_element resize_script = Some program
          /\ run_script depth doc program = Some (Normal tt, w)
          /\ existsb (observes DocumentBody) (observers w) = true
          /\ timers w <> []).
Proof.
  intros Hclaim.
  assert (1 <= occurrences "</body>" "</body><p>hi</p>") as Hcontains by (vm_compute; lia).
  destruct (Hclaim {| url := None; htmlContent := Some "</body><p>hi</p>" |}
              "</body><p>hi</p>" WithoutBody 0 eq_refl Hcontains)
    as (program & w & Hparse & Hrun & _).
  vm_compute in Hparse. injection Hparse as <-.
  vm_compute in Hrun. discriminate Hrun.
Qed.


(** * More on the sizing channel *)

Section ChannelFacts.

Context `{JsRuntime}.

(** What the handler does depends on the event alone: it leaves the state,
    or sets one height, or throws. *)
Lemma handleMessage_outcome event :
  (forall st, handleMessage event st = Normal st)
  \/ (exists n, forall st, handleMessage event st = Normal (setIframeHeight n st))
  \/ (exists e, forall st, handleMessage event st = Throw e).
Proof.
  unfold handleMessage.
  destruct (_ && _); [| by left].
  cbv beta iota delta [mbind Completion_bind].
  destruct (member _ _) as [height | e]; [| right; right; by exists e].
  destruct (js_add _ _) as [sum | e]; [| right; right; by exists e].
  destruct (Math_max _) as [highest | e]; [| right; right; by exists e].
  destruct (Math_min _) as [lowest | e]; [| right; right; by exists e].
  right; left. by exists lowest.
Qed.

Lemma number_eqb_eq a b : number_eqb a b = true -> a = b.
Proof.
  destruct a as [s | s | | s m e], b as [s' | s' | | s' m' e']; cbn; try discriminate.
  - by intros ->%Bool.eqb_prop.
  - by intros ->%Bool.eqb_prop.
  - done.
  - intros [[->%Bool.eqb_prop ->%Pos.eqb_eq]%andb_true_iff ->%Z.eqb_eq]%andb_true_iff.
    reflexivity.
Qed.

Lemma accepts_SizeReport h : accepts (SizeReport h) = ToBoolean (JsPrim (JsNumber h)).
Proof. reflexivity. Qed.

Lemma GetV_SizeReport h : GetV (SizeReport h) "height" = JsPrim (JsNumber h).
Proof. reflexivity. Qed.

End ChannelFacts.

(** X1: delivering the same message twice is the same as delivering it
    once, and a report that passes the guard with a number as height
    overrides whatever message came before it. *)
Theorem dispatch_message_last_report_wins
    (R : JsRuntime) (first last : MessageEvent) (st : ViewerState) :
  dispatch_message last (dispatch_message last st) = dispatch_message last st
  /\ (forall h : number,
         accepts (data last) = true ->
         GetV (data last) "height" = JsPrim (JsNumber h) ->
         dispatch_message last (dispatch_message first st) = dispatch_message last st).
Proof.
  split.
  - unfold dispatch_message.
    destruct (handleMessage_outcome last) as [Hsame | [[n Hset] | [e Hthrow]]].
    + by rewrite !Hsame.
    + by rewrite !Hset.
    + by rewrite !Hthrow.
  - intros h Hacc Hh. unfold dispatch_message.
    rewrite !(handleMessage_number last _ h Hacc Hh).
    destruct (handleMessage_outcome first) as [Hsame | [[n Hset] | [e Hthrow]]].
    + by rewrite Hsame.
    + by rewrite Hset.
    + by rewrite Hthrow.
Qed.

(** X1 at a report of 500 pixels that follows a report of 1000 pixels. *)
Lemma dispatch_message_last_report_wins_witness :
  (accepts (SizeReport (of_Z 500)) = true
   /\ GetV (SizeReport (of_Z 500)) "height" = JsPrim (JsNumber (of_Z 500)))
  /\ forall R : JsRuntime,
      dispatch_message {| data := SizeReport (of_Z 500); origin := "null" |}
        (dispatch_message {| data := SizeReport (of_Z 1000); origin := "null" |} initial_state)
      = dispatch_message {| data := SizeReport (of_Z 500); origin := "null" |} initial_state.
Proof.
  split.
  - split; vm_compute; reflexivity.
  - intros R.
    apply (proj2 (dispatch_message_last_report_wins R
                    {| data := SizeReport (of_Z 1000); origin := "null" |}
                    {| data := SizeReport (of_Z 500); origin := "null" |}
                    initial_state) (of_Z 500));
      vm_compute; reflexivity.
Defined.

Section RunFacts.

Context `{JsRuntime}.

Lemma run_nil world : run [] world = world.
Proof. reflexivity. Qed.

Lemma run_cons a actions world : run (a :: actions) world = run actions (step a world).
Proof. reflexivity. Qed.

Lemma run_app actions actions' world :
  run (actions ++ actions') world = run actions' (run actions world).
Proof. unfold run. apply foldl_app. Qed.

(** A property of the viewer kept by every permitted action is kept by
    every run of permitted actions. *)
Lemma run_preserves (permitted : Action -> Prop) (P : Viewer -> Prop) :
  (forall a v w, permitted a -> P v -> P (fst (step a (v, w)))) ->
  forall actions world,
    Forall permitted actions -> P (fst world) -> P (fst (run actions world)).
Proof.
  intros Hstep actions.
  induction actions as [| a actions IH]; intros [v w] Hall Hv; [exact Hv |].
  apply Forall_cons in Hall as [Ha Hall].
  rewrite run_cons. apply IH; [exact Hall |].
  by apply Hstep.
Qed.

(** Nothing but a message touches the height. *)
Lemma step_hooks_height a v w :
  match a with
  | Message _ => True
  | _ => iframeHeight (hooks (fst (step a (v, w)))) = iframeHeight (hooks v)
  end.
Proof.
  destruct a; cbn [step fst hooks with_hooks];
    [by rewrite handleRefresh_hooks | by rewrite openInNewTab_viewer | done ..].
Qed.

Lemma height_in_range_step a v w :
  numeric_or_ignored a ->
  height_in_range (iframeHeight (hooks v)) = true ->
  height_in_range (iframeHeight (hooks (fst (step a (v, w))))) = true.
Proof.
  intros Ha Hv.
  pose proof (step_hooks_height a v w) as Hsame.
  destruct a as [| | | | | event]; try (by rewrite Hsame).
  cbn [step fst hooks with_hooks]. unfold dispatch_message.
  destruct (accepts (data event)) eqn:Hacc.
  - destruct Ha as [Hno | [h Hh]]; [congruence |].
    destruct (accepted_report_height_in_range event (hooks v) h Hacc Hh)
      as (height' & -> & Hnan & Hlo & Hhi).
    cbn [iframeHeight setIframeHeight]. unfold height_in_range.
    by rewrite Hnan, Hlo, Hhi.
  - by rewrite handleMessage_ignored.
Qed.

End RunFacts.

(** X2: as long as every message either fails the guard or carries a number
    as height, the height of a mounted viewer stays a number between 300
    and 800, whatever else is done to the viewer. *)
Theorem iframeHeight_stays_in_range
    (R : JsRuntime) (p : InteractiveOutputProps) (w : Window) (actions : list Action) :
  Forall numeric_or_ignored actions ->
  height_in_range (iframeHeight (hooks (fst (run actions (mount p, w))))) = true.
Proof.
  intros Hall.
  apply (run_preserves numeric_or_ignored
           (fun v => height_in_range (iframeHeight (hooks v)) = true)).
  - intros a v w'. apply height_in_range_step.
  - exact Hall.
  - by_computation.
Qed.

(** X2 at a run with a report far above the bounds and one far below. *)
Lemma iframeHeight_stays_in_range_witness :
  Forall numeric_or_ignored
    [Message {| data := SizeReport (of_Z 100000); origin := "null" |};
     ToggleExpanded;
     Message {| data := SizeReport (of_Z (-7)); origin := "null" |};
     Refresh]
  /\ forall R : JsRuntime,
      height_in_range
        (iframeHeight (hooks (fst (run
           [Message {| data := SizeReport (of_Z 100000); origin := "null" |};
            ToggleExpanded;
            Message {| data := SizeReport (of_Z (-7)); origin := "null" |};
            Refresh]
           (mount {| url := None; htmlContent := Some "<p>hi</p>" |},
            {| objectURLs := []; opened := [] |})))))
      = true.
Proof.
  split.
  - repeat (apply Forall_cons; split); try apply Forall_nil; try exact I;
      right; eexists; reflexivity.
  - intros R. apply (iframeHeight_stays_in_range R).
    repeat (apply Forall_cons; split); try apply Forall_nil; try exact I;
      right; eexists; reflexivity.
Defined.

Section ThrowFacts.

Context `{JsRuntime}.

(** The handler on [{type: "resize", height: v}], guard resolved. *)
Lemma handleMessage_resize_payload v origin st :
  handleMessage {| data := resize_payload v; origin := origin |} st
  = if ToBoolean v
    then
      sum ← js_add v (JsNumber (of_Z 40));
      highest ← Math_max [JsPrim sum; JsPrim (JsNumber (of_Z 300))];
      lowest ← Math_min [JsPrim (JsNumber highest); JsPrim (JsNumber (of_Z 800))];
      Normal (setIframeHeight lowest st)
    else Normal st.
Proof. reflexivity. Qed.

Lemma js_add_BigInt_number z n :
  js_add (JsPrim (JsBigInt z)) (JsPrim (JsNumber n)) = Throw TypeError.
Proof. reflexivity. Qed.

Lemma js_add_object_toString (fields : gmap string JsValue) v rval :
  fields !! "toString" = Some v -> js_add (JsObject fields) rval = Throw TypeError.
Proof. intros Hown. unfold js_add, ToPrimitive. by rewrite Hown. Qed.

End ThrowFacts.

(** X3: the handler throws a TypeError, and the listener leaves the state as
    it was, on a report whose height is a BigInt other than [0n], and on one
    whose height is an object with an own property named [toString]. *)
Theorem handleMessage_throws_TypeError
    (R : JsRuntime) (origin : string) (st : ViewerState) :
  (forall z : Z,
      z <> 0%Z ->
      handleMessage {| data := resize_payload (JsPrim (JsBigInt z)); origin := origin |} st
      = Throw TypeError
      /\ dispatch_message
           {| data := resize_payload (JsPrim (JsBigInt z)); origin := origin |} st = st)
  /\ (forall (fields : gmap string JsValue) (v : JsValue),
         fields !! "toString" = Some v ->
         handleMessage {| data := resize_payload (JsObject fields); origin := origin |} st
         = Throw TypeError
         /\ dispatch_message
              {| data := resize_payload (JsObject fields); origin := origin |} st = st).
Proof.
  split.
  - intros z Hz.
    assert (handleMessage
              {| data := resize_payload (JsPrim (JsBigInt z)); origin := origin |} st
            = Throw TypeError) as Hthrow.
    { rewrite handleMessage_resize_payload. cbn [ToBoolean].
      apply Z.eqb_neq in Hz as ->. cbn [negb]. by rewrite js_add_BigInt_number. }
    split; [exact Hthrow |]. unfold dispatch_message. by rewrite Hthrow.
  - intros fields v Hown.
    assert (handleMessage
              {| data := resize_payload (JsObject fields); origin := origin |} st
            = Throw TypeError) as Hthrow.
    { rewrite handleMessage_resize_payload. cbn [ToBoolean].
      by rewrite (js_add_object_toString fields v). }
    split; [exact Hthrow |]. unfold dispatch_message. by rewrite Hthrow.
Qed.

(** X3 at the heights [5n] and [{toString: null}]. *)
Lemma handleMessage_throws_TypeError_witness :
  (5 <> 0)%Z
  /\ ({[ "toString" := JsPrim JsNull ]} : gmap string JsValue) !! "toString"
     = Some (JsPrim JsNull)
  /\ forall R : JsRuntime,
      handleMessage {| data := resize_payload (JsPrim (JsBigInt 5)); origin := "null" |}
        initial_state = Throw TypeError
      /\ handleMessage
           {| data := resize_payload (JsObject {[ "toString" := JsPrim JsNull ]});
              origin := "null" |}
           initial_state = Throw TypeError.
Proof.
  split; [discriminate | split; [reflexivity |]].
  intros R. split.
  - apply (proj1 (handleMessage_throws_TypeError R "null" initial_state) 5%Z).
    discriminate.
  - apply (proj2 (handleMessage_throws_TypeError R "null" initial_state)
             {[ "toString" := JsPrim JsNull ]} (JsPrim JsNull)).
    reflexivity.
Defined.

(** X4: for a body whose scroll height is a whole number of pixels from 1
    to 4000, the report that the injected script posts passes the guard
    and takes the viewer to [min(max(h + 40, 300), 800)] pixels, computed on
    integers. *)
Theorem integer_scroll_height_gives_expected_height
    (R : JsRuntime) (doc : EmbeddedDocument) (origin : string) (st : ViewerState) :
  (1 <= body_scrollHeight doc <= 4000)%Z ->
  handleMessage {| data := resize_message doc; origin := origin |} st
  = Normal (setIframeHeight (of_Z (expected_height (body_scrollHeight doc))) st)
  /\ iframeHeight (dispatch_message {| data := resize_message doc; origin := origin |} st)
     = of_Z (expected_height (body_scrollHeight doc)).
Proof.
  intros Hrange.
  assert (forallb integer_report_ok (seqZ 1 4000) = true) as Hall
    by (vm_compute; reflexivity).
  assert (integer_report_ok (body_scrollHeight doc) = true) as Hok.
  { rewrite forallb_forall in Hall. apply Hall.
    apply list_elem_of_In, elem_of_seqZ. lia. }
  apply andb_true_iff in Hok as [Htruthy Hheight%number_eqb_eq].
  assert (handleMessage {| data := resize_message doc; origin := origin |} st
          = Normal (setIframeHeight (of_Z (expected_height (body_scrollHeight doc))) st))
    as Hset.
  { rewrite (handleMessage_number _ st (of_Z (body_scrollHeight doc))).
    - by rewrite Hheight.
    - exact Htruthy.
    - reflexivity. }
  split; [exact Hset |].
  unfold dispatch_message. by rewrite Hset.
Qed.

(** X4 at a body 600 pixels high. *)
Lemma integer_scroll_height_gives_expected_height_witness :
  (1 <= body_scrollHeight {| body_scrollHeight := 600 |} <= 4000)%Z
  /\ forall R : JsRuntime,
      handleMessage {| data := resize_message {| body_scrollHeight := 600 |};
                       origin := "null" |} initial_state
      = Normal (setIframeHeight (of_Z (expected_height 600)) initial_state)
      /\ iframeHeight
           (dispatch_message {| data := resize_message {| body_scrollHeight := 600 |};
                                origin := "null" |} initial_state)
         = of_Z 640.
Proof.
  split; [cbn; lia |].
  intros R.
  apply (integer_scroll_height_gives_expected_height R {| body_scrollHeight := 600 |}).
  cbn; lia.
Defined.

(** * More on the viewer's runs *)

Section MoreRunFacts.

Context `{JsRuntime}.

(** The viewers of a URL-only component after [k] refreshes. *)
Lemma url_history_step (p : InteractiveOutputProps) (address : string)
    (a : Action) (v : Viewer) (w : Window) (k : nat) :
  if_truthy (htmlContent p) = None ->
  if_truthy (url p) = Some address ->
  props v = p ->
  (exists el, iframeRef v = Some el /\ srcdoc el = None
              /\ navigations el = replicate (S k) (UrlDocument address)) ->
  props (fst (step a (v, w))) = p
  /\ exists el, iframeRef (fst (step a (v, w))) = Some el /\ srcdoc el = None
                /\ navigations el
                   = replicate (S (k + refreshes [a])) (UrlDocument address).
Proof.
  intros Hinline Hurl Hprops (el & Hel & Hsrcdoc & Hnav).
  pose proof (if_truthy_Some _ _ Hurl) as [_ Hnonempty].
  destruct a; cbn [step fst refreshes]; rewrite ?Nat.add_0_r;
    try (split; [exact Hprops | by exists el]).
  - unfold handleRefresh. rewrite Hel, Hprops, Hinline, Hurl.
    split; [exact Hprops |]. eexists. split; [reflexivity |].
    split; [exact Hsrcdoc |].
    cbn [set_src navigations]. rewrite Hsrcdoc, Hnav. cbn [process_iframe_attributes].
    rewrite Hnonempty, Nat.add_1_r. reflexivity.
  - rewrite openInNewTab_viewer. split; [exact Hprops | by exists el].
Qed.

(** The viewers of a component with inline HTML after [k] refreshes. *)
Lemma inline_history_step (p : InteractiveOutputProps) (html first : string)
    (a : Action) (v : Viewer) (w : Window) (k : nat) :
  if_truthy (htmlContent p) = Some html ->
  props v = p ->
  (exists el, iframeRef v = Some el
              /\ navigations el
                 = (replicate k (SrcdocDocument html) ++ [SrcdocDocument first])%list) ->
  props (fst (step a (v, w))) = p
  /\ exists el, iframeRef (fst (step a (v, w))) = Some el
                /\ navigations el
                   = (replicate (k + refreshes [a]) (SrcdocDocument html)
                      ++ [SrcdocDocument first])%list.
Proof.
  intros Hinline Hprops (el & Hel & Hnav).
  destruct a; cbn [step fst refreshes]; rewrite ?Nat.add_0_r;
    try (split; [exact Hprops | by exists el]).
  - unfold handleRefresh. rewrite Hel, Hprops, Hinline.
    split; [exact Hprops |]. eexists. split; [reflexivity |].
    cbn [set_srcdoc navigations process_iframe_attributes].
    rewrite Hnav, Nat.add_1_r. reflexivity.
  - rewrite openInNewTab_viewer. split; [exact Hprops | by exists el].
Qed.

(** The viewers of a component with neither prop. *)
Lemma blank_history_step (p : InteractiveOutputProps)
    (a : Action) (v : Viewer) (w : Window) :
  if_truthy (htmlContent p) = None ->
  if_truthy (url p) = None ->
  props v = p ->
  (exists el, iframeRef v = Some el /\ navigations el = [AboutBlank]) ->
  props (fst (step a (v, w))) = p
  /\ exists el, iframeRef (fst (step a (v, w))) = Some el /\ navigations el = [AboutBlank].
Proof.
  intros Hinline Hurl Hprops (el & Hel & Hnav).
  destruct a; cbn [step fst]; try (split; [exact Hprops | by exists el]).
  - unfold handleRefresh. rewrite Hel, Hprops, Hinline, Hurl.
    split; [exact Hprops | by exists el].
  - rewrite openInNewTab_viewer. split; [exact Hprops | by exists el].
Qed.

Lemma refreshes_cons a actions : refreshes (a :: actions) = refreshes [a] + refreshes actions.
Proof. by destruct a. Qed.

Lemma if_truthy_None_blank (prop : option string) :
  if_truthy prop = None -> process_iframe_attributes None prop = AboutBlank.
Proof.
  unfold if_truthy, process_iframe_attributes.
  destruct prop as [s |]; [| done]. by destruct (String.eqb s "").
Qed.

End MoreRunFacts.

(** X5: the documents a viewer has shown, newest first, after any run.
    With a URL and no inline HTML: the URL, once for the mount and once for
    each refresh.  With inline HTML: the document with the script for the
    mount, then the [htmlContent] prop as it is for each refresh.  With
    neither: about:blank, once. *)
Theorem navigation_history
    (R : JsRuntime) (p : InteractiveOutputProps) (w : Window) (actions : list Action) :
  (forall address : string,
      if_truthy (htmlContent p) = None ->
      if_truthy (url p) = Some address ->
      (navigations <$> iframeRef (fst (run actions (mount p, w))))
      = Some (replicate (S (refreshes actions)) (UrlDocument address)))
  /\ (forall html : string,
         if_truthy (htmlContent p) = Some html ->
         (navigations <$> iframeRef (fst (run actions (mount p, w))))
         = Some (replicate (refreshes actions) (SrcdocDocument html)
                 ++ [SrcdocDocument (replace html "</body>" (resize_script +:+ "</body>"))])%list)
  /\ (if_truthy (htmlContent p) = None ->
      if_truthy (url p) = None ->
      (navigations <$> iframeRef (fst (run actions (mount p, w)))) = Some [AboutBlank]).
Proof.
  split; [| split].
  - intros address Hinline Hurl.
    assert (forall actions world k,
               props (fst world) = p ->
               (exists el, iframeRef (fst world) = Some el /\ srcdoc el = None
                           /\ navigations el = replicate (S k) (UrlDocument address)) ->
               exists el, iframeRef (fst (run actions world)) = Some el
                          /\ navigations el
                             = replicate (S (k + refreshes actions)) (UrlDocument address))
      as Hrun.
    { clear actions. induction actions as [| a actions IH]; intros [v w'] k Hprops Hinv.
      - destruct Hinv as (el & Hel & _ & Hnav). exists el. by rewrite Nat.add_0_r.
      - rewrite run_cons, refreshes_cons, Nat.add_assoc.
        destruct (url_history_step p address a v w' k Hinline Hurl Hprops Hinv)
          as [Hprops' Hinv'].
        destruct (step a (v, w')) as [v' w'']. by apply IH. }
    destruct (Hrun actions (mount p, w) 0) as (el & Hel & Hnav); [reflexivity | |].
    + pose proof (if_truthy_Some _ _ Hurl) as [Hprop Hnonempty].
      unfold mount, render, enhancedHtml. rewrite Hinline, Hprop.
      eexists. split; [reflexivity |]. split; [reflexivity |].
      cbn. by rewrite Hnonempty.
    + rewrite Hel. cbn [fmap option_fmap option_map]. by rewrite Hnav.
  - intros html Hinline.
    assert (forall actions world k,
               props (fst world) = p ->
               (exists el, iframeRef (fst world) = Some el
                           /\ navigations el
                              = (replicate k (SrcdocDocument html)
                                 ++ [SrcdocDocument
                                       (replace html "</body>"
                                          (resize_script +:+ "</body>"))])%list) ->
               exists el, iframeRef (fst (run actions world)) = Some el
                          /\ navigations el
                             = (replicate (k + refreshes actions) (SrcdocDocument html)
                                ++ [SrcdocDocument
                                      (replace html "</body>"
                                         (resize_script +:+ "</body>"))])%list)
      as Hrun.
    { clear actions. induction actions as [| a actions IH]; intros [v w'] k Hprops Hinv.
      - destruct Hinv as (el & Hel & Hnav). exists el. by rewrite Nat.add_0_r.
      - rewrite run_cons, refreshes_cons, Nat.add_assoc.
        destruct (inline_history_step p html _ a v w' k Hinline Hprops Hinv)
          as [Hprops' Hinv'].
        destruct (step a (v, w')) as [v' w'']. by apply IH. }
    destruct (Hrun actions (mount p, w) 0) as (el & Hel & Hnav); [reflexivity | |].
    + unfold mount, render, enhancedHtml. rewrite Hinline.
      eexists. split; reflexivity.
    + rewrite Hel. cbn [fmap option_fmap option_map]. by rewrite Hnav.
  - intros Hinline Hurl.
    assert (forall actions world,
               props (fst world) = p ->
               (exists el, iframeRef (fst world) = Some el /\ navigations el = [AboutBlank]) ->
               exists el, iframeRef (fst (run actions world)) = Some el
                          /\ navigations el = [AboutBlank]) as Hrun.
    { clear actions. induction actions as [| a actions IH]; intros [v w'] Hprops Hinv.
      - exact Hinv.
      - rewrite run_cons.
        destruct (blank_history_step p a v w' Hinline Hurl Hprops Hinv) as [Hprops' Hinv'].
        destruct (step a (v, w')) as [v' w'']. by apply IH. }
    destruct (Hrun actions (mount p, w)) as (el & Hel & Hnav); [reflexivity | |].
    + unfold mount, render, enhancedHtml. rewrite Hinline.
      eexists. split; [reflexivity |].
      cbn [navigations jsx_srcDoc jsx_src]. by rewrite if_truthy_None_blank.
    + rewrite Hel. cbn [fmap option_fmap option_map]. by rewrite Hnav.
Qed.

(** X5 at a URL-only viewer refreshed twice between other actions. *)
Lemma navigation_history_witness :
  (if_truthy (htmlContent {| url := Some "https://example.com/widget.html";
                             htmlContent := None |}) = None
   /\ if_truthy (url {| url := Some "https://example.com/widget.html";
                        htmlContent := None |})
      = Some "https://example.com/widget.html")
  /\ forall R : JsRuntime,
      (navigations <$> iframeRef (fst (run
         [IframeLoad; Refresh; ToggleExpanded; Refresh]
         (mount {| url := Some "https://example.com/widget.html"; htmlContent := None |},
          {| objectURLs := []; opened := [] |}))))
      = Some (replicate (S (refreshes [IframeLoad; Refresh; ToggleExpanded; Refresh]))
                (UrlDocument "https://example.com/widget.html")).
Proof.
  split; [split; reflexivity |].
  intros R.
  apply (proj1 (navigation_history R
                  {| url := Some "https://example.com/widget.html"; htmlContent := None |}
                  {| objectURLs := []; opened := [] |}
                  [IframeLoad; Refresh; ToggleExpanded; Refresh])
           "https://example.com/widget.html"); reflexivity.
Defined.

Section MessageRunFacts.

Context `{JsRuntime}.

Lemma step_Message_frame event v w :
  props (fst (step (Message event) (v, w))) = props v
  /\ iframeRef (fst (step (Message event) (v, w))) = iframeRef v
  /\ snd (step (Message event) (v, w)) = w
  /\ isExpanded (hooks (fst (step (Message event) (v, w)))) = isExpanded (hooks v)
  /\ isLoaded (hooks (fst (step (Message event) (v, w)))) = isLoaded (hooks v).
Proof.
  cbn [step fst snd props iframeRef hooks with_hooks].
  repeat split; apply dispatch_message_frame.
Qed.

End MessageRunFacts.

(** X6: messages, whatever they carry and however many arrive, touch
    nothing but the height: the props, the iframe with its attributes and
    documents, the window, [isExpanded] and [isLoaded] are as before. *)
Theorem messages_touch_height_only
    (R : JsRuntime) (events : list MessageEvent) (v : Viewer) (w : Window) :
  props (fst (run (Message <$> events) (v, w))) = props v
  /\ iframeRef (fst (run (Message <$> events) (v, w))) = iframeRef v
  /\ snd (run (Message <$> events) (v, w)) = w
  /\ isExpanded (hooks (fst (run (Message <$> events) (v, w)))) = isExpanded (hooks v)
  /\ isLoaded (hooks (fst (run (Message <$> events) (v, w)))) = isLoaded (hooks v).
Proof.
  revert v. induction events as [| event events IH]; intros v; [done |].
  rewrite fmap_cons, run_cons.
  destruct (step_Message_frame event v w) as (Hprops & Hiframe & Hwindow & Hexp & Hload).
  destruct (step (Message event) (v, w)) as [v' w'].
  cbn [fst snd] in Hprops, Hiframe, Hwindow, Hexp, Hload. subst w'.
  rewrite <- Hprops, <- Hiframe, <- Hexp, <- Hload. apply IH.
Qed.

(** * More on the injection *)

Section FirstOccurrenceFacts.

Lemma prefix_nil_l (s : string) : String.prefix EmptyString s = true.
Proof. by destruct s. Qed.

(** Whether a pattern starts a string is decided by as many characters
    as the pattern has. *)
Lemma prefix_append_long (pattern s rest : string) :
  String.length pattern <= String.length s ->
  String.prefix pattern (s +:+ rest) = String.prefix pattern s.
Proof.
  revert s. induction pattern as [| ch pattern IH]; intros s Hlen.
  - by rewrite !prefix_nil_l.
  - destruct s as [| ch' s]; [simpl in Hlen; lia |].
    rewrite append_cons. simpl. destruct (ascii_dec ch ch'); [| done].
    apply IH. simpl in Hlen. lia.
Qed.

(** Where the pattern does not occur before a position at which it does
    occur, [StringIndexOf] finds that position.  An occurrence that starts
    before the position ends before the last character of the one at the
    position. *)
Lemma StringIndexOf_first (body : string) (last : ascii) (pre post : string) :
  occurrences (body +:+ String last EmptyString) (pre +:+ body) = 0 ->
  StringIndexOf (pre +:+ (body +:+ String last EmptyString) +:+ post)
    (body +:+ String last EmptyString)
  = Some (String.length pre).
Proof.
  induction pre as [| ch pre IH]; intros Hocc.
  - rewrite append_nil_l, StringIndexOf_unfold, prefix_append. reflexivity.
  - rewrite append_cons in Hocc |- *.
    rewrite occurrences_unfold in Hocc. rewrite StringIndexOf_unfold. simpl String.length.
    assert (String.prefix (body +:+ String last EmptyString)
              (String ch (pre +:+ (body +:+ String last EmptyString) +:+ post))
            = String.prefix (body +:+ String last EmptyString) (String ch (pre +:+ body)))
      as Hprefix.
    { assert (String ch (pre +:+ (body +:+ String last EmptyString) +:+ post)
              = String ch (pre +:+ body) +:+ (String last EmptyString +:+ post)) as ->
        by (rewrite append_cons; f_equal; by rewrite !append_assoc).
      apply prefix_append_long. simpl. rewrite !length_append. simpl. lia. }
    rewrite Hprefix.
    destruct (String.prefix _ (String ch (pre +:+ body))); [lia |].
    rewrite IH by lia. reflexivity.
Qed.

End FirstOccurrenceFacts.

(** X7: the script element, written out below, goes before the first
    [</body>] of the inline HTML, and whatever follows that tag, further
    [</body>] tags included, is passed on as it is. *)
Theorem enhancedHtml_first_closing_body
    (p : InteractiveOutputProps) (pre post : string) :
  if_truthy (htmlContent p) = Some (pre +:+ "</body>" +:+ post) ->
  occurrences "</body>" (pre +:+ "</body") = 0 ->
  let script_block :=
    "<script>
                new ResizeObserver(() => {
                    parent.postMessage({ type: 'resize', height: document.body.scrollHeight }, '*');
                }).observe(document.body);
                setTimeout(() => {
                    parent.postMessage({ type: 'resize', height: document.body.scrollHeight }, '*');
                }, 1000);
              </script>" in
  enhancedHtml p = Some (pre +:+ script_block +:+ "</body>" +:+ post).
Proof.
  intros Hinline Hfirst script_block.
  change script_block with resize_script. clear script_block.
  unfold enhancedHtml. rewrite Hinline. f_equal.
  unfold replace.
  pose proof (StringIndexOf_first "</body" ">" pre post Hfirst) as Hindex.
  change ("</body" +:+ ">") with "</body>" in Hindex. rewrite Hindex.
  rewrite substring_to_append, GetSubstitution_literal by by_computation.
  rewrite <- length_append, <- (append_assoc pre "</body>" post), substring_from_append.
  by rewrite append_assoc.
Qed.

(** X7 at inline HTML with two [</body>] tags. *)
Lemma enhancedHtml_first_closing_body_witness :
  (if_truthy (htmlContent {| url := None;
                             htmlContent := Some "<body>a</body>b</body>" |})
   = Some ("<body>a" +:+ "</body>" +:+ "b</body>")
   /\ occurrences "</body>" ("<body>a" +:+ "</body") = 0)
  /\ enhancedHtml {| url := None; htmlContent := Some "<body>a</body>b</body>" |}
     = Some ("<body>a"
             +:+
             "<script>
                new ResizeObserver(() => {
                    parent.postMessage({ type: 'resize', height: document.body.scrollHeight }, '*');
                }).observe(document.body);
                setTimeout(() => {
                    parent.postMessage({ type: 'resize', height: document.body.scrollHeight }, '*');
                }, 1000);
              </script>"
             +:+ "</body>" +:+ "b</body>").
Proof.
  split; [split; vm_compute; reflexivity |].
  apply (enhancedHtml_first_closing_body
           {| url := None; htmlContent := Some "<body>a</body>b</body>" |}
           "<body>a" "b</body>"); vm_compute; reflexivity.
Defined.

(** * The transcript and the viewer it mounts *)



(** * The two variants of the component *)

Section VariantFacts.

Lemma V1_history (address : string) (k : nat) :
  String.eqb address "" = false ->
  exists el : HTMLIFrameElement,
    Nat.iter k (InteractiveOutputV1.handleRefresh address) (InteractiveOutputV1.mount address)
    = Some el
    /\ srcdoc el = None
    /\ navigations el = replicate (S k) (UrlDocument address).
Proof.
  intros Hnonempty. induction k as [| k (el & Hel & Hsrcdoc & Hnav)].
  - eexists. split; [reflexivity |]. split; [reflexivity |]. cbn. by rewrite Hnonempty.
  - rewrite Nat.iter_succ, Hel. eexists. split; [reflexivity |].
    split; [exact Hsrcdoc |].
    cbn [set_src navigations]. rewrite Hsrcdoc, Hnav. cbn [process_iframe_attributes].
    by rewrite Hnonempty.
Qed.

Lemma V2_history (address : string) (k : nat) :
  String.eqb address "" = false ->
  exists el : HTMLIFrameElement,
    iframeRef (Nat.iter k handleRefresh (mount {| url := Some address; htmlContent := None |}))
    = Some el
    /\ props (Nat.iter k handleRefresh (mount {| url := Some address; htmlContent := None |}))
       = {| url := Some address; htmlContent := None |}
    /\ srcdoc el = None
    /\ navigations el = replicate (S k) (UrlDocument address).
Proof.
  intros Hnonempty. induction k as [| k (el & Hel & Hprops & Hsrcdoc & Hnav)].
  - eexists. split; [reflexivity |]. split; [reflexivity |]. split; [reflexivity |].
    cbn. by rewrite Hnonempty.
  - rewrite Nat.iter_succ.
    set (v := Nat.iter k handleRefresh _) in *.
    unfold handleRefresh. rewrite Hel, Hprops.
    cbn [htmlContent url if_truthy]. rewrite Hnonempty.
    eexists. split; [reflexivity |]. split; [exact Hprops |]. split; [exact Hsrcdoc |].
    cbn [set_src navigations]. rewrite Hsrcdoc, Hnav. cbn [process_iframe_attributes].
    by rewrite Hnonempty.
Qed.

End VariantFacts.

(** X9: given a non-empty URL and no inline HTML, the component shows the
    same documents as its first variant, at the mount and after any number
    of refreshes. *)
Theorem variants_agree_on_url (address : string) (k : nat) :
  String.eqb address "" = false ->
  (navigations <$> iframeRef
     (Nat.iter k handleRefresh (mount {| url := Some address; htmlContent := None |})))
  = (navigations <$>
       Nat.iter k (InteractiveOutputV1.handleRefresh address)
         (InteractiveOutputV1.mount address)).
Proof.
  intros Hnonempty.
  destruct (V1_history address k Hnonempty) as (el1 & -> & _ & Hnav1).
  destruct (V2_history address k Hnonempty) as (el2 & -> & _ & _ & Hnav2).
  cbn [fmap option_fmap option_map]. by rewrite Hnav1, Hnav2.
Qed.

(** X9 at three refreshes. *)
Lemma variants_agree_on_url_witness :
  String.eqb "https://example.com/widget.html" "" = false
  /\ (navigations <$> iframeRef
        (Nat.iter 3 handleRefresh
           (mount {| url := Some "https://example.com/widget.html"; htmlContent := None |})))
     = (navigations <$>
          Nat.iter 3 (InteractiveOutputV1.handleRefresh "https://example.com/widget.html")
            (InteractiveOutputV1.mount "https://example.com/widget.html")).
Proof.
  split; [reflexivity |].
  by apply (variants_agree_on_url "https://example.com/widget.html" 3).
Defined.

(** * The sign-in page *)

Section AuthPageFacts.

Import AuthPage.

Lemma auth_run_cons ev events w : run (ev :: events) w = run events (step ev w).
Proof. reflexivity. Qed.

Lemma step_idle_or_awaiting ev w :
  idle w \/ (exists call, awaiting call w) ->
  idle (step ev w) \/ (exists call, awaiting call (step ev w)).
Proof.
  intros [[Hawaited Hloading] | [call [Hawaited Hloading]]];
    destruct ev; cbn [step]; rewrite ?Hloading, ?Hawaited;
    try (left; by split); try (right; exists call; by split).
  - right. eexists. by split.
  - right. eexists. by split.
Qed.



End AuthPageFacts.

(** X10: the sign-in page never awaits two calls: whatever is typed,
    clicked or settled, either nothing is awaited and [loading] is false,
    or exactly one call is awaited and [loading] is true. *)
Theorem auth_page_awaits_one_call (events : list AuthPage.Event) :
  AuthPage.idle
    (AuthPage.run events {| AuthPage.page := AuthPage.initial; AuthPage.awaited := [] |})
  \/ exists call : AuthPage.AuthCall,
       AuthPage.awaiting call
         (AuthPage.run events
            {| AuthPage.page := AuthPage.initial; AuthPage.awaited := [] |}).
Proof.
  assert (forall w, AuthPage.idle w \/ (exists call, AuthPage.awaiting call w) ->
                    AuthPage.idle (AuthPage.run events w)
                    \/ (exists call, AuthPage.awaiting call (AuthPage.run events w)))
    as Hrun.
  { induction events as [| ev events IH]; intros w Hw; [exact Hw |].
    rewrite auth_run_cons. by apply IH, step_idle_or_awaiting. }
  apply Hrun. left. by split.
Qed.



(** * The profile of the signed-in user *)

Section ProfileFacts.

Lemma append_nil_r (s : string) : s +:+ EmptyString = s.
Proof. induction s as [| ch s IH]; [reflexivity |]. rewrite append_cons. by f_equal. Qed.

Lemma if_truthy_nonempty (prop : option string) (s : string) :
  if_truthy prop = Some s -> s <> "".
Proof. intros [_ Hs]%if_truthy_Some. by apply String.eqb_neq. Qed.

Lemma if_truthy_of_nonempty (s : string) : s <> "" -> if_truthy (Some s) = Some s.
Proof. intros Hs%String.eqb_neq. unfold if_truthy. by rewrite Hs. Qed.

(** An address splits at its first ["@"]. *)
Lemma split_at_first_address (local domain : string) :
  occurrences "@" local = 0 ->
  Home.split_at_first (local +:+ "@" +:+ domain) = local.
Proof.
  intros Hlocal. unfold Home.split_at_first.
  pose proof (StringIndexOf_first EmptyString "@" local domain) as Hindex.
  rewrite append_nil_l, append_nil_r in Hindex.
  rewrite Hindex by exact Hlocal. apply substring_to_append.
Qed.

End ProfileFacts.

(** X12: the display name of a profile is never empty.  It is the user's
    display name when that is not empty; else the part of the email address
    before its first ["@"] when that part is not empty; else "User". *)
Theorem profile_displayName_never_empty (user : Home.User) :
  Home.profile_displayName (Home.profile_of user) <> ""
  /\ (forall name : string,
         if_truthy (Home.displayName user) = Some name ->
         Home.profile_displayName (Home.profile_of user) = name)
  /\ (forall local domain : string,
         if_truthy (Home.displayName user) = None ->
         Home.email user = Some (local +:+ "@" +:+ domain) ->
         occurrences "@" local = 0 ->
         Home.profile_displayName (Home.profile_of user)
         = if String.eqb local "" then "User" else local)
  /\ (if_truthy (Home.displayName user) = None ->
      Home.email user = None ->
      Home.profile_displayName (Home.profile_of user) = "User").
Proof.
  unfold Home.profile_of, Home.or_else. cbn [Home.profile_displayName].
  split; [| split; [| split]].
  - destruct (if_truthy (Home.displayName user)) as [name |] eqn:Hname.
    + cbn. by apply if_truthy_nonempty in Hname.
    + destruct (if_truthy (Home.split_at_first <$> Home.email user)) as [l |] eqn:Hl.
      * cbn. by apply if_truthy_nonempty in Hl.
      * cbn. discriminate.
  - by intros name ->.
  - intros local domain -> -> Hlocal.
    cbn [fmap option_fmap option_map]. rewrite split_at_first_address by exact Hlocal.
    unfold if_truthy. by destruct (String.eqb local "").
  - by intros -> ->.
Qed.

(** X12 at a user without a display name. *)
Lemma profile_displayName_never_empty_witness :
  (if_truthy (Home.displayName
                {| Home.uid := "u1"; Home.email := Some ("ada" +:+ "@" +:+ "example.com");
                   Home.displayName := None; Home.photoURL := None |}) = None
   /\ occurrences "@" "ada" = 0)
  /\ Home.profile_displayName
       (Home.profile_of
          {| Home.uid := "u1"; Home.email := Some ("ada" +:+ "@" +:+ "example.com");
             Home.displayName := None; Home.photoURL := None |})
     = (if String.eqb "ada" "" then "User" else "ada").
Proof.
  split; [split; reflexivity |].
  apply (proj1 (proj2 (proj2 (profile_displayName_never_empty
                                {| Home.uid := "u1";
                                   Home.email := Some ("ada" +:+ "@" +:+ "example.com");
                                   Home.displayName := None; Home.photoURL := None |})))
           "ada" "example.com"); reflexivity.
Defined.

(** * The API client *)

(** X13: the headers of a request of the API client.  With a token,
    [Authorization] is ["Bearer "] and the token, whatever the caller gave;
    without one, it is what the caller gave.  [Content-Type] is
    [application/json], whatever the caller gave, unless the body is form
    data, when it is what the caller gave.  Every other header, the method
    and the body are the caller's. *)
Theorem authFetch_headers
    (env token : option string) (path : string) (options : Api.RequestInit) :
  Api.headers (Api.request_init (Api.authFetch env token path options)) !! "Authorization"
  = match if_truthy token with
    | Some t => Some ("Bearer " +:+ t)
    | None => Api.headers options !! "Authorization"
    end
  /\ Api.headers (Api.request_init (Api.authFetch env token path options)) !! "Content-Type"
     = (if Api.is_FormData (Api.body options)
        then Api.headers options !! "Content-Type"
        else Some "application/json")
  /\ (forall name : string,
         name <> "Authorization" ->
         name <> "Content-Type" ->
         Api.headers (Api.request_init (Api.authFetch env token path options)) !! name
         = Api.headers options !! name)
  /\ Api.method (Api.request_init (Api.authFetch env token path options))
     = Api.method options
  /\ Api.body (Api.request_init (Api.authFetch env token path options))
     = Api.body options.
Proof.
  unfold Api.authFetch. cbn [Api.request_init Api.headers Api.method Api.body].
  repeat split.
  - destruct (Api.is_FormData (Api.body options)), (if_truthy token);
      rewrite ?lookup_insert_ne by done; by rewrite ?lookup_insert_eq.
  - destruct (Api.is_FormData (Api.body options)), (if_truthy token);
      rewrite ?lookup_insert_eq; rewrite ?lookup_insert_ne by done; done.
  - intros name Hauth Htype.
    destruct (Api.is_FormData (Api.body options)), (if_truthy token);
      by rewrite ?lookup_insert_ne by done.
Qed.

(** X13 at an upload: form data, a token, and a caller's header. *)
Lemma authFetch_headers_witness :
  ("X-Request-Id" <> "Authorization" /\ "X-Request-Id" <> "Content-Type")
  /\ Api.headers
       (Api.request_init
          (Api.authFetch None (Some "t0k3n") "/uploads/upload"
             {| Api.method := Some "POST";
                Api.body := Some (Api.FormDataBody [("project_id", "p1")]);
                Api.headers := {[ "X-Request-Id" := "7" ]} |}))
     !! "X-Request-Id"
     = Some "7".
Proof.
  split; [split; discriminate |].
  etrans.
  - apply (proj1 (proj2 (proj2 (authFetch_headers None (Some "t0k3n") "/uploads/upload"
                                  {| Api.method := Some "POST";
                                     Api.body :=
                                       Some (Api.FormDataBody [("project_id", "p1")]);
                                     Api.headers := {[ "X-Request-Id" := "7" ]} |})))
             "X-Request-Id"); discriminate.
  - reflexivity.
Defined.

(** * The text shown for a message *)

Section TextFacts.

Import Text.

Local Open Scope list_scope.

Lemma starts_with_app (pattern s : list N) : starts_with pattern (pattern ++ s) = true.
Proof.
  induction pattern as [| p pattern IH]; [by destruct s |].
  cbn. by rewrite N.eqb_refl.
Qed.

Lemma starts_with_app_l (a b s : list N) :
  starts_with a s = false -> starts_with (a ++ b) s = false.
Proof.
  revert s. induction a as [| p a IH]; intros s; [by destruct s |].
  destruct s as [| c s]; [done |]. cbn.
  destruct (N.eqb p c); [apply IH | done].
Qed.

Lemma occurs_in_app_l (a b s : list N) :
  occurs_in a s = false -> occurs_in (a ++ b) s = false.
Proof.
  induction s as [| c s IH]; cbn [occurs_in];
    intros [Hhere Hlater]%orb_false_iff; apply orb_false_iff.
  - split; [by apply starts_with_app_l | done].
  - split; [by apply starts_with_app_l | by apply IH].
Qed.

Lemma delimited_none opening rest s :
  starts_with opening s = false -> delimited opening rest s = None.
Proof. intros Hs. unfold delimited. by rewrite Hs. Qed.

(** Where the opening of a regex does not occur, nothing is removed. *)
Lemma remove_matches_absent opening rest s :
  occurs_in opening s = false ->
  remove_matches (delimited opening rest) 0 s = s.
Proof.
  induction s as [| c s IH]; [done |].
  cbn [occurs_in remove_matches]. intros [Hhere Hlater]%orb_false_iff.
  rewrite delimited_none by exact Hhere. by rewrite IH.
Qed.

(** Before the first occurrence of the opening, nothing is removed. *)
Lemma remove_matches_before opening rest pre s :
  starts_within opening (length pre) (pre ++ s) = false ->
  remove_matches (delimited opening rest) 0 (pre ++ s)
  = pre ++ remove_matches (delimited opening rest) 0 s.
Proof.
  induction pre as [| c pre IH]; [done |].
  cbn [length starts_within app remove_matches]. intros [Hhere Hlater]%orb_false_iff.
  rewrite delimited_none by exact Hhere. by rewrite IH.
Qed.

Lemma remove_matches_skip regex skip s :
  remove_matches regex skip s = remove_matches regex 0 (drop skip s).
Proof.
  revert skip. induction s as [| c s IH]; intros [| skip]; try reflexivity.
  cbn [remove_matches drop]. apply IH.
Qed.

(** A match at the start is left out whole. *)
Lemma remove_matches_match regex n s :
  s <> [] -> regex s = Some (S n) ->
  remove_matches regex 0 s = remove_matches regex 0 (drop (S n) s).
Proof.
  intros Hs Hmatch. destruct s as [| c s]; [done |].
  cbn [remove_matches drop]. rewrite Hmatch. apply remove_matches_skip.
Qed.

(** The lazy star stops at the first occurrence of what closes it. *)
Lemma lazy_star_first class closing body tail :
  forallb class body = true ->
  starts_within closing (length body) (body ++ closing ++ tail) = false ->
  lazy_star class closing (body ++ closing ++ tail) = Some (length body + length closing).
Proof.
  induction body as [| c body IH]; intros Hclass Hfirst.
  - cbn [app length]. destruct (closing ++ tail) eqn:E; cbn [lazy_star];
      rewrite <- E, starts_with_app; reflexivity.
  - cbn [forallb] in Hclass. apply andb_true_iff in Hclass as [Hc Hclass].
    cbn [length starts_within app] in Hfirst |- *.
    apply orb_false_iff in Hfirst as [Hhere Hlater].
    cbn [lazy_star]. rewrite Hhere, Hc, IH by done. reflexivity.
Qed.

Lemma lazy_plus_first class closing body tail :
  body <> [] ->
  forallb class body = true ->
  starts_within closing (length body) (body ++ closing ++ tail) = false ->
  lazy_plus class closing (body ++ closing ++ tail) = Some (length body + length closing).
Proof.
  intros Hbody Hclass Hfirst. destruct body as [| c body]; [done |].
  cbn [forallb] in Hclass. apply andb_true_iff in Hclass as [Hc Hclass].
  cbn [length starts_within app] in Hfirst |- *.
  apply orb_false_iff in Hfirst as [Hhere Hlater].
  unfold lazy_plus. rewrite Hc, lazy_star_first by done. reflexivity.
Qed.

(** One delimited block, the first in the string and with no opening after
    it, is what the regex removes. *)
Lemma remove_delimited_block opening closing rest text body tail :
  opening <> [] ->
  rest (body ++ closing ++ tail) = Some (length body + length closing) ->
  starts_within opening (length text) (text ++ opening ++ body ++ closing ++ tail) = false ->
  occurs_in opening tail = false ->
  remove_matches (delimited opening rest) 0 (text ++ opening ++ body ++ closing ++ tail)
  = text ++ tail.
Proof.
  intros Hopening Hrest Htext Htail.
  rewrite remove_matches_before by exact Htext. f_equal.
  assert (delimited opening rest (opening ++ body ++ closing ++ tail)
          = Some (S (pred (length opening) + (length body + length closing)))) as Hmatch.
  { unfold delimited. rewrite starts_with_app, drop_app_length, Hrest.
    destruct opening; [done | reflexivity]. }
  assert (opening ++ body ++ closing ++ tail <> []) as Hnonempty by by destruct opening.
  rewrite (remove_matches_match _ _ _ Hnonempty Hmatch).
  replace (S (pred (length opening) + (length body + length closing)))
    with (length opening + (length body + length closing))
    by (destruct opening; [done | reflexivity]).
  rewrite <- drop_drop, drop_app_length, <- drop_drop, drop_app_length, drop_app_length.
  by apply remove_matches_absent.
Qed.

Lemma forallb_any body : forallb any body = true.
Proof. by induction body. Qed.


(** X14: a message text in which ["<!-- "] does not occur is shown as it
    is, trimmed. *)
Theorem extractText_plain (content : list N) :
  Text.occurs_in (Text.units "<!-- ") content = false ->
  Text.extractText content = Text.trim content.
Proof.
  intros Hplain.
  assert (occurs_in (units "<!-- INTERACTIVE_OUTPUT: ") content = false) as Hmarker.
  { change (units "<!-- INTERACTIVE_OUTPUT: ")
      with (units "<!-- " ++ units "INTERACTIVE_OUTPUT: ").
    by apply occurs_in_app_l. }
  assert (occurs_in HTML_CONTENT_START content = false) as Hblock.
  { change HTML_CONTENT_START with (units "<!-- " ++ units "HTML_CONTENT_START -->").
    by apply occurs_in_app_l. }
  unfold extractText, interactive_marker, html_block.
  rewrite (remove_matches_absent (units "<!-- INTERACTIVE_OUTPUT: ")) by exact Hmarker.
  by rewrite remove_matches_absent by exact Hblock.
Qed.

(** X14 at a text with white space around it. *)
Lemma extractText_plain_witness :
  Text.occurs_in (Text.units "<!-- ") (Text.units "  a < b  ") = false
  /\ Text.extractText (Text.units "  a < b  ") = Text.trim (Text.units "  a < b  ").
Proof.
  split; [reflexivity |].
  by apply (extractText_plain (Text.units "  a < b  ")).
Defined.

(** X15: of a message text that holds one HTML block (the start marker,
    the first end marker after it, and what is between them) and no
    interactive-output marker, the text before the block and the text after
    it are shown, joined and trimmed. *)
Theorem extractText_html_block (text html tail : list N) :
  Text.occurs_in (Text.units "<!-- INTERACTIVE_OUTPUT: ")
    (text ++ Text.HTML_CONTENT_START ++ html ++ Text.HTML_CONTENT_END ++ tail) = false ->
  Text.starts_within Text.HTML_CONTENT_START (length text)
    (text ++ Text.HTML_CONTENT_START ++ html ++ Text.HTML_CONTENT_END ++ tail) = false ->
  Text.starts_within Text.HTML_CONTENT_END (length html)
    (html ++ Text.HTML_CONTENT_END ++ tail) = false ->
  Text.occurs_in Text.HTML_CONTENT_START tail = false ->
  Text.extractText
    (text ++ Text.HTML_CONTENT_START ++ html ++ Text.HTML_CONTENT_END ++ tail)
  = Text.trim (text ++ tail).
Proof.
  intros Hmarker Htext Hhtml Htail. unfold Text.extractText. f_equal.
  unfold Text.interactive_marker. rewrite remove_matches_absent by exact Hmarker.
  unfold Text.html_block. apply remove_delimited_block; try done.
  apply lazy_star_first; [apply forallb_any | exact Hhtml].
Qed.

(** X15 at a reply with a card between two sentences. *)
Lemma extractText_html_block_witness :
  (Text.occurs_in (Text.units "<!-- INTERACTIVE_OUTPUT: ")
     (Text.units "Here you go. " ++ Text.HTML_CONTENT_START
        ++ Text.units "<div>hi</div>" ++ Text.HTML_CONTENT_END ++ Text.units " Enjoy. ")
   = false
   /\ Text.starts_within Text.HTML_CONTENT_START (length (Text.units "Here you go. "))
        (Text.units "Here you go. " ++ Text.HTML_CONTENT_START
           ++ Text.units "<div>hi</div>" ++ Text.HTML_CONTENT_END ++ Text.units " Enjoy. ")
      = false
   /\ Text.starts_within Text.HTML_CONTENT_END (length (Text.units "<div>hi</div>"))
        (Text.units "<div>hi</div>" ++ Text.HTML_CONTENT_END ++ Text.units " Enjoy. ")
      = false
   /\ Text.occurs_in Text.HTML_CONTENT_START (Text.units " Enjoy. ") = false)
  /\ Text.extractText
       (Text.units "Here you go. " ++ Text.HTML_CONTENT_START
          ++ Text.units "<div>hi</div>" ++ Text.HTML_CONTENT_END ++ Text.units " Enjoy. ")
     = Text.trim (Text.units "Here you go. " ++ Text.units " Enjoy. ").
Proof.
  split; [repeat split; vm_compute; reflexivity |].
  apply (extractText_html_block (Text.units "Here you go. ")
           (Text.units "<div>hi</div>") (Text.units " Enjoy. "));
    vm_compute; reflexivity.
Defined.

(** X16: of a message text that holds one interactive-output marker (the
    opening, a non-empty reference on one line, and the first [" -->"] after
    at least one character of it) and no HTML block, the text before the
    marker and the text after it are shown, joined and trimmed. *)
Theorem extractText_interactive_marker (text reference tail : list N) :
  reference <> [] ->
  forallb Text.dot reference = true ->
  Text.starts_within (Text.units "<!-- INTERACTIVE_OUTPUT: ") (length text)
    (text ++ Text.units "<!-- INTERACTIVE_OUTPUT: " ++ reference ++ Text.units " -->" ++ tail)
  = false ->
  Text.starts_within (Text.units " -->") (length reference)
    (reference ++ Text.units " -->" ++ tail) = false ->
  Text.occurs_in (Text.units "<!-- INTERACTIVE_OUTPUT: ") tail = false ->
  Text.occurs_in Text.HTML_CONTENT_START (text ++ tail) = false ->
  Text.extractText
    (text ++ Text.units "<!-- INTERACTIVE_OUTPUT: " ++ reference ++ Text.units " -->" ++ tail)
  = Text.trim (text ++ tail).
Proof.
  intros Hnonempty Hline Htext Hreference Htail Hblock. unfold Text.extractText. f_equal.
  unfold Text.interactive_marker.
  rewrite (remove_delimited_block _ (Text.units " -->")); try done.
  - unfold Text.html_block. by apply remove_matches_absent.
  - by apply lazy_plus_first.
Qed.

(** X16 at a reply that ends with a marker. *)
Lemma extractText_interactive_marker_witness :
  (Text.units "https://example.com/w.html" <> []
   /\ forallb Text.dot (Text.units "https://example.com/w.html") = true
   /\ Text.starts_within (Text.units "<!-- INTERACTIVE_OUTPUT: ")
        (length (Text.units "Look: "))
        (Text.units "Look: " ++ Text.units "<!-- INTERACTIVE_OUTPUT: "
           ++ Text.units "https://example.com/w.html" ++ Text.units " -->" ++ [])
      = false
   /\ Text.starts_within (Text.units " -->")
        (length (Text.units "https://example.com/w.html"))
        (Text.units "https://example.com/w.html" ++ Text.units " -->" ++ []) = false
   /\ Text.occurs_in (Text.units "<!-- INTERACTIVE_OUTPUT: ") [] = false
   /\ Text.occurs_in Text.HTML_CONTENT_START (Text.units "Look: " ++ []) = false)
  /\ Text.extractText
       (Text.units "Look: " ++ Text.units "<!-- INTERACTIVE_OUTPUT: "
          ++ Text.units "https://example.com/w.html" ++ Text.units " -->" ++ [])
     = Text.trim (Text.units "Look: " ++ []).
Proof.
  split; [repeat split; try discriminate; vm_compute; reflexivity |].
  apply (extractText_interactive_marker (Text.units "Look: ")
           (Text.units "https://example.com/w.html") []);
    try discriminate; vm_compute; reflexivity.
Defined.

End TextFacts.

(** * Uploads and opened tabs *)


Section WindowFacts.

Context `{JsRuntime}.

Lemma step_props a v w : props (fst (step a (v, w))) = props v.
Proof.
  destruct a; cbn [step fst props with_hooks]; try reflexivity.
  - apply handleRefresh_props.
  - by rewrite openInNewTab_viewer.
Qed.

Lemma step_window a v w :
  match a with OpenInNewTab => True | _ => snd (step a (v, w)) = w end.
Proof. by destruct a. Qed.

Lemma opened_blobs_succ n k :
  opened_blobs n (S k) = (opened_blobs (S n) k ++ [(ObjectURL n, "_blank")])%list.
Proof.
  induction k as [| k IH].
  - cbn. by rewrite Nat.add_0_r.
  - change (opened_blobs n (S (S k)))
      with ((ObjectURL (n + S k), "_blank") :: opened_blobs n (S k)).
    rewrite IH. cbn [opened_blobs app]. by rewrite Nat.add_succ_r.
Qed.

End WindowFacts.

(** X18: with inline HTML, every press of the open-in-new-tab button stores
    one more [text/html] blob holding the [htmlContent] prop and opens the
    URL of that blob in a new tab; no action removes a blob or reuses a URL,
    so after a run the blobs stored are those before it and one per press. *)
Theorem openInNewTab_blobs_accumulate
    (R : JsRuntime) (p : InteractiveOutputProps) (html : string)
    (actions : list Action) (w : Window) :
  if_truthy (htmlContent p) = Some html ->
  objectURLs (snd (run actions (mount p, w)))
  = (objectURLs w
     ++ replicate (opens actions) {| blobParts := [html]; blobType := "text/html" |})%list
  /\ opened (snd (run actions (mount p, w)))
     = (opened_blobs (length (objectURLs w)) (opens actions) ++ opened w)%list.
Proof.
  intros Hinline.
  assert (forall actions v w,
             props v = p ->
             objectURLs (snd (run actions (v, w)))
             = (objectURLs w
                ++ replicate (opens actions)
                     {| blobParts := [html]; blobType := "text/html" |})%list
             /\ opened (snd (run actions (v, w)))
                = (opened_blobs (length (objectURLs w)) (opens actions) ++ opened w)%list)
    as Hrun.
  { clear actions w. induction actions as [| a actions IH]; intros v w Hprops.
    - cbn. by rewrite app_nil_r.
    - rewrite run_cons.
      pose proof (step_props a v w) as Hprops'. rewrite Hprops in Hprops'.
      pose proof (step_window a v w) as Hwindow.
      destruct a; cbn [opens];
        try (destruct (step _ (v, w)) as [v' w'] eqn:Hstep; cbn [fst snd] in *;
             subst w'; by apply IH).
      destruct (step OpenInNewTab (v, w)) as [v' w'] eqn:Hstep.
      cbn [step] in Hstep. unfold openInNewTab in Hstep.
      rewrite Hprops, Hinline in Hstep. cbn in Hstep. injection Hstep as <- <-.
      destruct (IH v (window_open (ObjectURL (length (objectURLs w))) "_blank"
                        {| objectURLs := objectURLs w
                                         ++ [ {| blobParts := [html];
                                                 blobType := "text/html" |} ];
                           opened := opened w |}) Hprops) as [Hblobs Hopened].
      rewrite Hblobs, Hopened. cbn [objectURLs opened window_open].
      split.
      + by rewrite <- app_assoc.
      + rewrite length_app, Nat.add_1_r, opened_blobs_succ, <- app_assoc. reflexivity. }
  by apply Hrun.
Qed.

(** X18 at two presses with a refresh between them. *)
Lemma openInNewTab_blobs_accumulate_witness :
  if_truthy (htmlContent {| url := None; htmlContent := Some "<p>hi</p>" |})
  = Some "<p>hi</p>"
  /\ forall R : JsRuntime,
      objectURLs (snd (run [OpenInNewTab; Refresh; OpenInNewTab]
                         (mount {| url := None; htmlContent := Some "<p>hi</p>" |},
                          {| objectURLs := []; opened := [] |})))
      = ([] ++ replicate (opens [OpenInNewTab; Refresh; OpenInNewTab])
                 {| blobParts := ["<p>hi</p>"]; blobType := "text/html" |})%list.
Proof.
  split; [reflexivity |].
  intros R.
  by apply (openInNewTab_blobs_accumulate R
              {| url := None; htmlContent := Some "<p>hi</p>" |} "<p>hi</p>"
              [OpenInNewTab; Refresh; OpenInNewTab] {| objectURLs := []; opened := [] |}).
Defined.
